(** * goto_plugin_speed: the speed-controlled go-to-waypoint plugin

    A shallow embedding of [src/goto_plugin_speed.cpp] (class
    [goto_plugin_speed::Plugin]) and the properties of its velocity limiter,
    heading selection and execution loop.

    Numbers.  The C++ code computes with [float] and [double].  A number of
    either type is modelled by the rational [Q] it denotes, and equality of
    computed numbers is [Qeq] ([==]).  Comparisons, negation and absolute
    value are exact in the code and in the model.  The limiter comes in two
    layers.

    - The exact layer ([clampSpeed], [scaleStep], [delimitSpeed]) computes
      without rounding.  It carries the execution loop and the properties
      that meet no rounding on their path: guards, comparisons and the inputs
      that the code computes exactly.

    - The rounded layer (module [Rounded]) rounds where the code rounds: the
      [double] coefficient narrowed to [float] at each call of
      [getValidSpeed], the quotient and the products of the proportional
      scaling.  Rounding is to nearest, ties to even, with the gradual
      underflow of the format.  The properties of the limiter that depend on
      the value of a rounded result are stated on this layer.

    Infinities and NaN are outside both layers.  A finite limit that is not
    negative and finite inputs lead the limiter to no overflow but one: a
    [double] beyond the [float] range narrows to an infinity, which the
    clamp replaces by the limit, as it does the large number of the model. *)

From Stdlib Require Import ZArith QArith Qabs Qminmax Qround Qreduction Lqa Bool
  List Lia.
From Stdlib Require Reals Lra.
Import ListNotations.

Local Open Scope Q_scope.

(** ** Comparisons of the source, as boolean functions *)

Module Cmp.

(** [a < b] of the source. *)
Definition ltb (a b : Q) : bool := negb (Qle_bool b a).

(** [a > b] of the source. *)
Definition gtb (a b : Q) : bool := ltb b a.

(** [a == b] of the source. *)
Definition eqb (a b : Q) : bool := Qeq_bool a b.

End Cmp.

(** ** Eigen::Vector3d *)

Record Vector3d : Type := mkVector3d { vx : Q; vy : Q; vz : Q }.

(** [v[j]] for the indices the loop uses, 0, 1 and 2.  Eigen asserts on any
    other index; the source never produces one, and the model answers [vz]. *)
Definition coeff (v : Vector3d) (j : nat) : Q :=
  match j with
  | O => vx v
  | S O => vy v
  | _ => vz v
  end.

(** [a - b] on vectors. *)
Definition vsub (a b : Vector3d) : Vector3d :=
  mkVector3d (vx a - vx b) (vy a - vy b) (vz a - vz b).

(** [v *= s]: every coefficient is multiplied by the scalar [s]. *)
Definition vscale (v : Vector3d) (s : Q) : Vector3d :=
  mkVector3d (vx v * s) (vy v * s) (vz v * s).

(** Coefficient-wise rational equality of vectors. *)
Definition veq (a b : Vector3d) : Prop :=
  vx a == vx b /\ vy a == vy b /\ vz a == vz b.

(** [v.head(2).norm() < c] for a bound [c >= 0], on the exact layer: the
    Euclidean norm of the first two coefficients is below [c] exactly when
    its square is below the square of [c], which needs no square root.  The
    code compares the norm as computed in [double] arithmetic; the roundings
    of the squares, of their sum and of the root are left out here. *)
Definition head2_norm_ltb (v : Vector3d) (c : Q) : bool :=
  Cmp.ltb (vx v * vx v + vy v * vy v) (c * c).

(** ** The velocity limiter *)

(** [float getValidSpeed(float speed)], with the member [desired_speed_] as
    first argument.  On its [float] argument the function compares and
    negates, which is exact.  The narrowing of the [double] coefficient to
    that argument belongs to the call: [Rounded.clampSpeed] has it. *)
Definition getValidSpeed (desired_speed_ speed : Q) : Q :=
  if Cmp.gtb (Qabs speed) desired_speed_
  then (if Cmp.ltb speed 0 then - desired_speed_ else desired_speed_)
  else speed.

(** The [else] branch of "Delimit the speed for each axis": the three
    assignments [speed.x() = getValidSpeed(speed.x())] and so on.  Exact
    layer: the narrowing of each coefficient to [float] is left out. *)
Definition clampSpeed (desired_speed_ : Q) (speed : Vector3d) : Vector3d :=
  mkVector3d (getValidSpeed desired_speed_ (vx speed))
             (getValidSpeed desired_speed_ (vy speed))
             (getValidSpeed desired_speed_ (vz speed)).

(** One iteration of the loop [for (short j = 0; j < 3; j++)] of the
    proportional branch.  The state is the vector [speed] together with the
    log of the divisors used so far, latest first: the iteration divides by
    [speed[j]] only when it scales, and then records that divisor.  Exact
    layer: the quotient and the products are not rounded; the guards, which
    decide whether and by what the iteration divides, are those of the
    code. *)
Definition scaleStep (desired_speed_ : Q) (st : Vector3d * list Q) (j : nat)
  : Vector3d * list Q :=
  let (speed, divisors) := st in
  if Cmp.eqb desired_speed_ 0 || Cmp.eqb (coeff speed j) 0 then st
  else if Cmp.gtb (coeff speed j) desired_speed_
          || Cmp.ltb (coeff speed j) (- desired_speed_)
       then (vscale speed (Qabs (desired_speed_ / coeff speed j)),
             coeff speed j :: divisors)
       else st.

(** The whole loop, [j] running over 0, 1, 2. *)
Definition scaleLoop (desired_speed_ : Q) (speed : Vector3d)
  : Vector3d * list Q :=
  fold_left (scaleStep desired_speed_) (seq 0 3) (speed, []).

(** The vector the proportional branch leaves in [speed]. *)
Definition proportionalSpeed (desired_speed_ : Q) (speed : Vector3d) : Vector3d :=
  fst (scaleLoop desired_speed_ speed).

(** The divisors the proportional branch has divided by. *)
Definition proportionalDivisors (desired_speed_ : Q) (speed : Vector3d) : list Q :=
  snd (scaleLoop desired_speed_ speed).

(** "Delimit the speed for each axis": the [if (proportional_speed_limit_)]
    statement as a whole. *)
Definition delimitSpeed (proportional_speed_limit_ : bool) (desired_speed_ : Q)
    (speed : Vector3d) : Vector3d :=
  if proportional_speed_limit_
  then proportionalSpeed desired_speed_ speed
  else clampSpeed desired_speed_ speed.


(** ** The heading *)

(** A yaw angle handed to the motion handler.  [getActualYaw()] yields a
    number; [atan2f] is not a rational function, so its application is kept
    symbolic. *)
Inductive Yaw : Type :=
| yaw (angle : Q)
| atan2f (y x : Q).

(** [float getDesiredYawAngle(Eigen::Vector3d position_error)]. *)
Definition getDesiredYawAngle (position_error : Vector3d) : Yaw :=
  atan2f (vy position_error) (vx position_error).

(** The statements of [onExecute] that assign [desired_yaw] in one tick:
    the conditional assignment, then the three-way [if].  [actualYaw] is
    what [getActualYaw()] returns during the tick. *)
Definition selectYaw (ignore_yaw_ : bool) (actualYaw : Q)
    (speed_setpoint : Vector3d) : Yaw :=
  let desired_yaw :=
    if ignore_yaw_ then yaw actualYaw else getDesiredYawAngle speed_setpoint in
  let desired_yaw :=
    if ignore_yaw_ then yaw actualYaw
    else if negb ignore_yaw_ && head2_norm_ltb speed_setpoint 2 then yaw actualYaw
    else getDesiredYawAngle speed_setpoint in
  desired_yaw.

(** ** The plugin and its goal *)

(** The fields of [as2_msgs::action::GoToWaypoint::Goal] the plugin reads. *)
Record Goal : Type := mkGoal {
  target_pose_position : Vector3d;
  max_speed : Q;
  ignore_pose_yaw : bool
}.

(** The members of [Plugin] and of its base class that the plugin reads or
    writes. *)
Record Plugin : Type := mkPlugin {
  proportional_speed_limit_ : bool;
  desired_position_ : Vector3d;
  desired_speed_ : Q;
  ignore_yaw_ : bool;
  distance_measured_ : bool
}.

Module GoalResponse.
Inductive t : Type := REJECT | ACCEPT_AND_EXECUTE | ACCEPT_AND_DEFER.
End GoalResponse.

Module CancelResponse.
Inductive t : Type := REJECT | ACCEPT.
End CancelResponse.

(** [onAccepted]: the new state of the plugin and the response. *)
Definition onAccepted (p : Plugin) (goal : Goal) : Plugin * GoalResponse.t :=
  (mkPlugin (proportional_speed_limit_ p)
            (target_pose_position goal)
            (if negb (Cmp.eqb (max_speed goal) 0)
             then max_speed goal else desired_speed_ p)
            (ignore_pose_yaw goal)
            false,
   GoalResponse.ACCEPT_AND_EXECUTE).

(** [onCancel]. *)
Definition onCancel (p : Plugin) : CancelResponse.t := CancelResponse.ACCEPT.

(** ** The execution loop *)

(** What one pass of the [while] loop of [onExecute] observes of its
    collaborators, each field at the place the source reads it:
    [checkGoalCondition] at the loop test, [is_canceling] at the first
    statement of the body, the others further down.  [command_accepted] is the
    answer of the motion handler to the velocity command of the pass. *)
Record Tick : Type := mkTick {
  checkGoalCondition : bool;
  is_canceling : bool;
  actual_position_ : Vector3d;
  getActualYaw : Q;
  actual_distance_to_goal_ : Q;
  actual_speed_ : Q;
  command_accepted : bool
}.

(** The calls [onExecute] can make on the goal handle and on the two motion
    handlers.  [canceled], [succeed] and [abort] carry the [goto_success]
    field of the result they report; [abort] is the third terminal call of a
    goal handle. *)
Inductive Event : Type :=
| canceled (goto_success : bool)
| succeed (goto_success : bool)
| abort (goto_success : bool)
| sendHover
| sendSpeedCommandWithYawAngle (x y z : Q) (yaw_angle : Yaw)
| publish_feedback (actual_distance_to_goal actual_speed : Q).

(** The body of the loop after the cancellation test: from the computation
    of [speed_setpoint] to [publish_feedback].  The value returned by
    [sendSpeedCommandWithYawAngle] is discarded by the source, so
    [command_accepted] is not read.  The numbers of the command are those of
    the exact layer. *)
Definition controlTick (p : Plugin) (t : Tick) : list Event :=
  let speed_setpoint := vsub (desired_position_ p) (actual_position_ t) in
  let desired_yaw := selectYaw (ignore_yaw_ p) (getActualYaw t) speed_setpoint in
  let speed :=
    mkVector3d (vx speed_setpoint) (vy speed_setpoint) (vz speed_setpoint) in
  let speed :=
    delimitSpeed (proportional_speed_limit_ p) (desired_speed_ p) speed in
  [ sendSpeedCommandWithYawAngle (vx speed) (vy speed) (vz speed) desired_yaw;
    publish_feedback (actual_distance_to_goal_ t) (actual_speed_ t) ].

(** [bool onExecute(goal_handle)] run against the observations of
    successive passes.  The result is the sequence of calls made, in order,
    and the value returned; [None] says that the loop is still running when
    the observations are used up.  The plugin is not written during the run.
    Left out: the initial [desired_yaw = getActualYaw()], overwritten before
    its first use, the log message of the cancellation, and
    [loop_rate.sleep()], which separates two passes. *)
Fixpoint onExecute (p : Plugin) (ticks : list Tick) : list Event * option bool :=
  match ticks with
  | [] => ([], None)
  | t :: ticks' =>
      if negb (checkGoalCondition t) then
        if is_canceling t then ([canceled false; sendHover], Some false)
        else
          let (events, returned) := onExecute p ticks' in
          (controlTick p t ++ events, returned)
      else ([succeed true; sendHover], Some true)
  end.

(** ** Reading a run *)

Definition isHover (e : Event) : bool :=
  match e with sendHover => true | _ => false end.

Definition isSpeedCommand (e : Event) : bool :=
  match e with sendSpeedCommandWithYawAngle _ _ _ _ => true | _ => false end.

Definition isAbort (e : Event) : bool :=
  match e with abort _ => true | _ => false end.

(** How many events of a trace satisfy [f]. *)
Definition count (f : Event -> bool) (trace : list Event) : nat :=
  length (filter f trace).

(** A pass that neither ends the loop nor cancels it. *)
Definition running (t : Tick) : Prop :=
  checkGoalCondition t = false /\ is_canceling t = false.

(** The same observations with another answer of the motion handler. *)
Definition answering (accepted : bool) (t : Tick) : Tick :=
  mkTick (checkGoalCondition t) (is_canceling t) (actual_position_ t)
         (getActualYaw t) (actual_distance_to_goal_ t) (actual_speed_ t)
         accepted.

(** ** Tolerances *)

Module Approx.
Import Reals Qreals.
Local Open Scope R_scope.

(** The rational [q] is within [eps] of the real number [r]. *)
Definition near (eps : R) (q : Q) (r : R) : Prop := Rabs (Q2R q - r) <= eps.

(** Coefficient-wise, the vector [v] is within [eps] of [(x, y, z)]. *)
Definition approximately (eps : R) (v : Vector3d) (x y z : R) : Prop :=
  near eps (vx v) x /\ near eps (vy v) y /\ near eps (vz v) z.

End Approx.

(** ** A flight used in the examples *)

Module Scenario.

(** Clamp policy, target (10, 0, 0), speed limit 2, yaw ignored. *)
Definition plugin : Plugin :=
  mkPlugin false (mkVector3d 10 0 0) 2 true false.

(** A pass at the origin whose velocity command the motion handler
    rejects. *)
Definition rejected : Tick :=
  mkTick false false (mkVector3d 0 0 0) 0 10 0 false.

(** A pass one metre further, command accepted. *)
Definition flying : Tick :=
  mkTick false false (mkVector3d 1 0 0) 0 9 2 true.

(** A pass that finds the goal reached. *)
Definition arrived : Tick :=
  mkTick true false (mkVector3d 10 0 0) 0 0 0 true.

(** A pass that finds the goal reached and a cancellation pending. *)
Definition arrived_canceling : Tick :=
  mkTick true true (mkVector3d 10 0 0) 0 0 0 true.

(** A pass that finds a cancellation pending, the goal not reached. *)
Definition canceling : Tick :=
  mkTick false true (mkVector3d 2 0 0) 0 8 2 true.

End Scenario.

(** The example of the diagonal target. *)

Module Diagonal.

(** Target (10, 10, 0) seen from the origin: the position error of the
    pass. *)
Definition position_error : Vector3d :=
  vsub (mkVector3d 10 10 0) (mkVector3d 0 0 0).

(** The command of the proportional policy for a speed limit of 2. *)
Definition command : Vector3d := delimitSpeed true 2 position_error.

End Diagonal.

(** ** Initialisation *)




(** ** More on reading a run *)

Definition isFeedback (e : Event) : bool :=
  match e with publish_feedback _ _ => true | _ => false end.

(** The terminal calls on the goal handle. *)
Definition isReport (e : Event) : bool :=
  match e with canceled _ | succeed _ | abort _ => true | _ => false end.

(** The report and the hold command that end a run returning [success]. *)
Definition ending (success : bool) : list Event :=
  if success then [succeed true; sendHover] else [canceled false; sendHover].


(** ** The divisors of the proportional loop *)

(** A divisor of the loop is an axis value that is not zero and lies beyond
    the limit. *)
Definition divisible (m d : Q) : Prop := ~ d == 0 /\ (m < d \/ d < - m).

(** ** The horizontal norm over the reals *)

Module Norm.
Import Reals Qreals.
Local Open Scope R_scope.

(** [v.head(2).norm()]: the Euclidean norm of the first two coefficients. *)
Definition head2_norm (v : Vector3d) : R :=
  sqrt (Q2R (vx v) * Q2R (vx v) + Q2R (vy v) * Q2R (vy v)).

End Norm.

(** ** Rounding to a binary format *)

(** The integer nearest to [q], the even one of the two when [q] lies half
    way. *)
Definition RNE (q : Q) : Z :=
  let k := Qfloor q in
  match (q - inject_Z k ?= 1 # 2)%Q with
  | Lt => k
  | Gt => (k + 1)%Z
  | Eq => if Z.even k then k else (k + 1)%Z
  end.

(** [X >= 0] rounded to an integer of [p] significant bits: below [2 ^ p]
    to the nearest integer, from there on to the nearest multiple of the
    power of two [2 ^ e] that leaves [p] bits. *)
Definition roundZ (p : Z) (X : Q) : Z :=
  let k := Z.log2 (Qfloor X) in
  let e := Z.max (k - p + 1) 0 in
  (RNE (X / inject_Z (2 ^ e))%Q * 2 ^ e)%Z.

(** [x] rounded to the binary format of [p] significant bits whose smallest
    positive number is [1 / N]: the magnitude is counted in units of [1 / N]
    and rounded there, the sign is kept.  No largest number is set. *)
Definition round (p : Z) (N : positive) (x : Q) : Q :=
  if Qle_bool 0 x
  then Qred (roundZ p (x * inject_Z (Zpos N)) # N)
  else Qred (- roundZ p (- x * inject_Z (Zpos N)) # N).

(** ** The limiter with its roundings *)

(** [v] multiplied by the factors in turn, without rounding. *)
Definition exactlyScaledBy (factors : list Q) (v : Vector3d) : Vector3d :=
  fold_left vscale factors v.

(** The product of the factors. *)
Definition product (factors : list Q) : Q := fold_left Qmult factors 1.

Module Rounded.

(** Rounding to [double]: 53 bits, smallest positive number [2 ^ -1074]. *)
Definition toDouble : Q -> Q := round 53 (2 ^ 1074).

(** Rounding to [float]: 24 bits, smallest positive number [2 ^ -149]. *)
Definition toFloat : Q -> Q := round 24 (2 ^ 149).

(** The largest finite numbers of the two types. *)
Definition maxDouble : Q := inject_Z ((2 ^ 53 - 1) * 2 ^ 971).
Definition maxFloat : Q := inject_Z ((2 ^ 24 - 1) * 2 ^ 104).

(** The finite numbers of the two types: those that rounding leaves alone,
    up to the largest. *)
Definition isDouble (x : Q) : Prop := toDouble x == x /\ Qabs x <= maxDouble.
Definition isFloat (x : Q) : Prop := toFloat x == x /\ Qabs x <= maxFloat.

(** The three assignments [speed.x() = getValidSpeed(speed.x())] and so on:
    the [double] coefficient is narrowed to the [float] parameter of
    [getValidSpeed], whose [float] result is a [double] as it is. *)
Definition clampSpeed (desired_speed_ : Q) (speed : Vector3d) : Vector3d :=
  mkVector3d (getValidSpeed desired_speed_ (toFloat (vx speed)))
             (getValidSpeed desired_speed_ (toFloat (vy speed)))
             (getValidSpeed desired_speed_ (toFloat (vz speed))).

(** [v *= s] on doubles: every product is rounded. *)
Definition vscale (v : Vector3d) (s : Q) : Vector3d :=
  mkVector3d (toDouble (vx v * s)) (toDouble (vy v * s)) (toDouble (vz v * s)).

(** One iteration of the loop of the proportional branch.  The state is the
    vector [speed] with the log of the factors applied so far, in order.  The
    quotient [desired_speed_ / speed[j]] is a rounded [double] division; its
    absolute value is exact. *)
Definition scaleStep (desired_speed_ : Q) (st : Vector3d * list Q) (j : nat)
  : Vector3d * list Q :=
  let (speed, factors) := st in
  if Cmp.eqb desired_speed_ 0 || Cmp.eqb (coeff speed j) 0 then st
  else if Cmp.gtb (coeff speed j) desired_speed_
          || Cmp.ltb (coeff speed j) (- desired_speed_)
       then
         let factor := Qabs (toDouble (desired_speed_ / coeff speed j)) in
         (vscale speed factor, factors ++ [factor])
       else st.

(** The whole loop, [j] running over 0, 1, 2. *)
Definition scaleLoop (desired_speed_ : Q) (speed : Vector3d)
  : Vector3d * list Q :=
  fold_left (scaleStep desired_speed_) (seq 0 3) (speed, []).

(** The vector the proportional branch leaves in [speed]. *)
Definition proportionalSpeed (desired_speed_ : Q) (speed : Vector3d) : Vector3d :=
  fst (scaleLoop desired_speed_ speed).

(** The factors the proportional branch has multiplied by. *)
Definition proportionalFactors (desired_speed_ : Q) (speed : Vector3d) : list Q :=
  snd (scaleLoop desired_speed_ speed).

(** "Delimit the speed for each axis", with its roundings. *)
Definition delimitSpeed (proportional_speed_limit_ : bool) (desired_speed_ : Q)
    (speed : Vector3d) : Vector3d :=
  if proportional_speed_limit_
  then proportionalSpeed desired_speed_ speed
  else clampSpeed desired_speed_ speed.

(** [v] multiplied by the factors in turn, every product rounded. *)
Definition scaledBy (factors : list Q) (v : Vector3d) : Vector3d :=
  fold_left vscale factors v.

(** The [double] nearest to one tenth. *)
Definition tenth : Q := 3602879701896397 # 36028797018963968.

End Rounded.

(** ** Facts on the comparisons *)

Module CmpFacts.
Import Cmp.

Lemma ltb_lt a b : ltb a b = true <-> a < b.
Proof.
  unfold ltb. rewrite negb_true_iff, <- not_true_iff_false, Qle_bool_iff.
  split; intro H; [apply Qnot_le_lt | apply Qlt_not_le]; exact H.
Qed.

Lemma ltb_ge a b : ltb a b = false <-> b <= a.
Proof.
  unfold ltb. rewrite negb_false_iff. apply Qle_bool_iff.
Qed.

Lemma gtb_gt a b : gtb a b = true <-> b < a.
Proof. apply ltb_lt. Qed.

Lemma gtb_le a b : gtb a b = false <-> a <= b.
Proof. apply ltb_ge. Qed.

Lemma eqb_eq a b : eqb a b = true <-> a == b.
Proof. apply Qeq_bool_iff. Qed.

Lemma eqb_neq a b : eqb a b = false <-> ~ a == b.
Proof.
  unfold eqb. rewrite <- not_true_iff_false, Qeq_bool_iff. tauto.
Qed.

End CmpFacts.

(** ** Facts on absolute values and vectors *)

Lemma Qabs_cases (x : Q) :
  (0 <= x /\ Qabs x == x) \/ (x < 0 /\ Qabs x == - x).
Proof.
  destruct (Qlt_le_dec x 0) as [Hneg | Hpos].
  - right. split; [exact Hneg |]. apply Qabs_neg. lra.
  - left. split; [exact Hpos |]. apply Qabs_pos. exact Hpos.
Qed.

(** Turns the boolean comparisons among the hypotheses into inequalities. *)
Ltac cmp_prop :=
  repeat match goal with
  | H : _ || _ = true |- _ => apply orb_true_iff in H
  | H : _ || _ = false |- _ => apply orb_false_iff in H; destruct H
  | H : Cmp.ltb _ _ = true |- _ => apply CmpFacts.ltb_lt in H
  | H : Cmp.ltb _ _ = false |- _ => apply CmpFacts.ltb_ge in H
  | H : Cmp.gtb _ _ = true |- _ => apply CmpFacts.gtb_gt in H
  | H : Cmp.gtb _ _ = false |- _ => apply CmpFacts.gtb_le in H
  | H : Cmp.eqb _ _ = true |- _ => apply CmpFacts.eqb_eq in H
  | H : Cmp.eqb _ _ = false |- _ => apply CmpFacts.eqb_neq in H
  end.

(** Splits on the sign of [x] and leaves [Qabs x] as an atom for [lra]. *)
Ltac abs_split x :=
  let Hs := fresh "Hsign" in
  let Ha := fresh "Habs" in
  destruct (Qabs_cases x) as [[Hs Ha] | [Hs Ha]].

Lemma veq_refl v : veq v v.
Proof. repeat split; reflexivity. Qed.

Lemma veq_trans a b c : veq a b -> veq b c -> veq a c.
Proof.
  intros (H1 & H2 & H3) (K1 & K2 & K3).
  repeat split; etransitivity; eassumption.
Qed.

Lemma vscale_one v : veq v (vscale v 1).
Proof. repeat split; simpl; ring. Qed.

Lemma vscale_veq a b s : veq a b -> veq (vscale a s) (vscale b s).
Proof.
  intros (H1 & H2 & H3). repeat split; simpl;
    [rewrite H1 | rewrite H2 | rewrite H3]; reflexivity.
Qed.

Lemma vscale_vscale v s r : veq (vscale (vscale v s) r) (vscale v (s * r)).
Proof. repeat split; simpl; ring. Qed.

Lemma coeff_veq a b j : veq a b -> coeff a j == coeff b j.
Proof.
  intros (H1 & H2 & H3). destruct j as [| [| j]]; simpl; assumption.
Qed.

Lemma coeff_vscale v s j : coeff (vscale v s) j = coeff v j * s.
Proof. destruct j as [| [| j]]; reflexivity. Qed.

(** ** The per-axis clamp *)

Lemma getValidSpeed_bound m s : 0 <= m -> Qabs (getValidSpeed m s) <= m.
Proof.
  intro Hm. unfold getValidSpeed.
  destruct (Cmp.gtb (Qabs s) m) eqn:Hgt; cmp_prop.
  - destruct (Cmp.ltb s 0) eqn:Hlt.
    + abs_split (- m); lra.
    + abs_split m; lra.
  - exact Hgt.
Qed.

Lemma getValidSpeed_inside m s : Qabs s <= m -> getValidSpeed m s = s.
Proof.
  intro Hin. unfold getValidSpeed.
  destruct (Cmp.gtb (Qabs s) m) eqn:Hgt; cmp_prop; [lra | reflexivity].
Qed.

Lemma getValidSpeed_shrinks m s :
  0 <= m -> Qabs (getValidSpeed m s) <= Qabs s.
Proof.
  intro Hm. unfold getValidSpeed.
  destruct (Cmp.gtb (Qabs s) m) eqn:Hgt; cmp_prop.
  - destruct (Cmp.ltb s 0) eqn:Hlt.
    + abs_split (- m); lra.
    + abs_split m; lra.
  - lra.
Qed.

Lemma getValidSpeed_zero m s : m == 0 -> getValidSpeed m s == 0.
Proof.
  intro Hm. unfold getValidSpeed.
  destruct (Cmp.gtb (Qabs s) m) eqn:Hgt; cmp_prop.
  - destruct (Cmp.ltb s 0); lra.
  - abs_split s; lra.
Qed.

Lemma coeff_clampSpeed m v j :
  coeff (clampSpeed m v) j = getValidSpeed m (coeff v j).
Proof. destruct j as [| [| j]]; reflexivity. Qed.

(** ** The proportional scaling *)

(** The factor of a scaling pass: positive, and at most one when the speed
    limit is not negative. *)
Lemma scale_factor m c :
  ~ m == 0 -> ~ c == 0 -> m < c \/ c < - m ->
  0 < Qabs (m / c) /\ (0 <= m -> Qabs (m / c) <= 1).
Proof.
  intros Hm Hc Hout.
  assert (Hq : c * (m / c) == m) by (apply Qmult_div_r; exact Hc).
  assert (Hprod : Qabs c * Qabs (m / c) == Qabs m)
    by (rewrite <- Qabs_Qmult, Hq; reflexivity).
  assert (Hnz : ~ m / c == 0).
  { intro H0. apply Hm. rewrite <- Hq, H0. ring. }
  pose proof (Qabs_nonneg (m / c)) as Hf.
  split.
  - abs_split (m / c); lra.
  - intro Hpos.
    assert (HM : Qabs m == m) by (apply Qabs_pos; exact Hpos).
    assert (HC : m < Qabs c) by (abs_split c; lra).
    destruct (Qlt_le_dec 1 (Qabs (m / c))) as [Hbig | Hsmall]; [| exact Hsmall].
    exfalso. nra.
Qed.

Lemma scaleStep_skip m st j : m == 0 -> scaleStep m st j = st.
Proof.
  intro Hm. destruct st as [speed divisors]. unfold scaleStep.
  apply CmpFacts.eqb_eq in Hm. rewrite Hm. reflexivity.
Qed.

Lemma scaleStep_divisors m st j :
  Forall (fun d => ~ d == 0) (snd st) ->
  Forall (fun d => ~ d == 0) (snd (scaleStep m st j)).
Proof.
  destruct st as [speed divisors]. unfold scaleStep. intro Hdiv.
  destruct (Cmp.eqb m 0 || Cmp.eqb (coeff speed j) 0) eqn:Hskip;
    [exact Hdiv |].
  destruct (Cmp.gtb (coeff speed j) m || Cmp.ltb (coeff speed j) (- m));
    [| exact Hdiv].
  cmp_prop. constructor; assumption.
Qed.

Lemma scaleSteps_divisors m js : forall st,
  Forall (fun d => ~ d == 0) (snd st) ->
  Forall (fun d => ~ d == 0) (snd (fold_left (scaleStep m) js st)).
Proof.
  induction js as [| j js IH]; intros st Hst; simpl; [exact Hst |].
  apply IH, scaleStep_divisors, Hst.
Qed.

Lemma scaleSteps_skip m js : forall st,
  m == 0 -> fold_left (scaleStep m) js st = st.
Proof.
  induction js as [| j js IH]; intros st Hm; simpl; [reflexivity |].
  rewrite (scaleStep_skip m st j Hm). apply IH, Hm.
Qed.

(** The proportional branch never divides by zero, whatever its inputs. *)
Lemma proportionalDivisors_nonzero m v :
  Forall (fun d => ~ d == 0) (proportionalDivisors m v).
Proof. apply (scaleSteps_divisors m (seq 0 3) (v, [])). constructor. Qed.

(** ** Properties of the velocity limiter *)

(** C5.  With a speed limit equal to zero the proportional policy divides by
    nothing and returns its input unchanged, and the per-axis clamp, which
    has no division, returns the zero vector. *)
Theorem zero_max_speed_degenerate (max_speed : Q) (speed : Vector3d) :
  max_speed == 0 ->
  proportionalDivisors max_speed speed = [] /\
  delimitSpeed true max_speed speed = speed /\
  veq (delimitSpeed false max_speed speed) (mkVector3d 0 0 0).
Proof.
  intro Hzero. split; [| split].
  - unfold proportionalDivisors, scaleLoop.
    rewrite scaleSteps_skip by exact Hzero. reflexivity.
  - simpl. unfold proportionalSpeed, scaleLoop.
    rewrite scaleSteps_skip by exact Hzero. reflexivity.
  - repeat split; simpl; apply getValidSpeed_zero; exact Hzero.
Qed.

Lemma zero_max_speed_degenerate_witness :
  0 == 0 /\
  proportionalDivisors 0 (mkVector3d 3 (-4) 0) = [] /\
  delimitSpeed true 0 (mkVector3d 3 (-4) 0) = mkVector3d 3 (-4) 0 /\
  veq (delimitSpeed false 0 (mkVector3d 3 (-4) 0)) (mkVector3d 0 0 0).
Proof.
  split; [reflexivity |].
  apply (zero_max_speed_degenerate 0 (mkVector3d 3 (-4) 0)). reflexivity.
Defined.

(** ** The example of the diagonal target *)

(** C4, as amended.  For target (10, 10, 0), position (0, 0, 0) and a speed
    limit of 2, the proportional policy commands (2, 2, 0): the x and y axes
    are equal, and no axis exceeds 2 in magnitude. *)
Theorem diagonal_command_is_2_2_0 :
  veq Diagonal.command (mkVector3d 2 2 0) /\
  vx Diagonal.command == vy Diagonal.command /\
  Qabs (vx Diagonal.command) <= 2 /\
  Qabs (vy Diagonal.command) <= 2 /\
  Qabs (vz Diagonal.command) <= 2.
Proof.
  vm_compute. repeat split; discriminate.
Qed.

Module ApproxFacts.
Import Reals Qreals Lra.
Local Open Scope R_scope.

Lemma sqrt2_below : sqrt 2 < 3 / 2.
Proof.
  assert (H0 : 0 <= sqrt 2) by apply sqrt_pos.
  assert (H2 : sqrt 2 * sqrt 2 = 2) by (apply sqrt_sqrt; lra).
  destruct (Rlt_le_dec (sqrt 2) (3 / 2)) as [Hlt | Hge]; [exact Hlt |].
  exfalso. nra.
Qed.

(** C4, counterexample.  The command computed for the example is not
    approximately (sqrt 2, sqrt 2, 0): its x axis is 2, more than one half
    away from the square root of 2. *)
Lemma diagonal_command_not_sqrt2 :
  ~ (vx Diagonal.command == vy Diagonal.command /\
     (Qabs (vx Diagonal.command) <= 2 /\
      Qabs (vy Diagonal.command) <= 2 /\
      Qabs (vz Diagonal.command) <= 2)%Q /\
     Approx.approximately (1 / 2) Diagonal.command (sqrt 2) (sqrt 2) 0).
Proof.
  intros (_ & _ & (Hx & _)). unfold Approx.near in Hx.
  assert (H2 : Q2R (vx Diagonal.command) = 2)
    by (vm_compute vx; unfold Q2R; simpl; lra).
  rewrite H2 in Hx. pose proof sqrt2_below as Hs.
  unfold Rabs in Hx. destruct (Rcase_abs (2 - sqrt 2)); lra.
Qed.

End ApproxFacts.

(** ** Properties of the heading *)

(** C7.  When the yaw of the goal is ignored, the heading selected in a pass
    is the actual yaw read in that pass, for every position error, and it is
    the heading of the pass's velocity command; no [atan2f] value is
    selected. *)
Theorem ignore_yaw_keeps_actual_yaw (p : Plugin) (t : Tick) :
  ignore_yaw_ p = true ->
  (forall position_error : Vector3d,
     selectYaw (ignore_yaw_ p) (getActualYaw t) position_error
     = yaw (getActualYaw t)) /\
  (forall (position_error : Vector3d) (y x : Q),
     selectYaw (ignore_yaw_ p) (getActualYaw t) position_error
     <> atan2f y x) /\
  exists x y z,
    hd_error (controlTick p t)
    = Some (sendSpeedCommandWithYawAngle x y z (yaw (getActualYaw t))).
Proof.
  intro Hignore. unfold controlTick. rewrite Hignore. split; [| split].
  - intro e. reflexivity.
  - intros e y x. discriminate.
  - eexists _, _, _. reflexivity.
Qed.

Lemma ignore_yaw_keeps_actual_yaw_witness :
  ignore_yaw_ Scenario.plugin = true /\
  (forall position_error : Vector3d,
     selectYaw (ignore_yaw_ Scenario.plugin) (getActualYaw Scenario.flying)
               position_error
     = yaw (getActualYaw Scenario.flying)) /\
  (forall (position_error : Vector3d) (y x : Q),
     selectYaw (ignore_yaw_ Scenario.plugin) (getActualYaw Scenario.flying)
               position_error
     <> atan2f y x) /\
  exists x y z,
    hd_error (controlTick Scenario.plugin Scenario.flying)
    = Some (sendSpeedCommandWithYawAngle x y z
              (yaw (getActualYaw Scenario.flying))).
Proof.
  split; [reflexivity |].
  apply (ignore_yaw_keeps_actual_yaw Scenario.plugin Scenario.flying).
  reflexivity.
Defined.

(** ** Facts on the acceptance of a goal *)

Lemma onAccepted_response p goal :
  snd (onAccepted p goal) = GoalResponse.ACCEPT_AND_EXECUTE.
Proof. reflexivity. Qed.

(** A goal whose [max_speed] is zero keeps the speed limit of the plugin;
    any other replaces it. *)
Lemma onAccepted_desired_speed p goal :
  desired_speed_ (fst (onAccepted p goal))
  = if Qeq_bool (max_speed goal) 0 then desired_speed_ p else max_speed goal.
Proof.
  simpl. unfold Cmp.eqb. destruct (Qeq_bool (max_speed goal) 0); reflexivity.
Qed.

(** ** Facts on runs *)

Lemma count_app f l1 l2 : count f (l1 ++ l2) = (count f l1 + count f l2)%nat.
Proof. unfold count. rewrite filter_app, length_app. reflexivity. Qed.

(** The passes that neither end nor cancel the loop emit no hold command, no
    abort, and one velocity command each. *)
Lemma count_controlTicks p pre :
  count isHover (flat_map (controlTick p) pre) = 0%nat /\
  count isAbort (flat_map (controlTick p) pre) = 0%nat /\
  count isSpeedCommand (flat_map (controlTick p) pre) = length pre.
Proof.
  induction pre as [| t pre (IHh & IHa & IHs)]; simpl; [easy |].
  unfold count in *. simpl. rewrite IHs. auto.
Qed.

Lemma onExecute_goal p t post :
  checkGoalCondition t = true ->
  onExecute p (t :: post) = ([succeed true; sendHover], Some true).
Proof. intro Hgoal. simpl. rewrite Hgoal. reflexivity. Qed.

Lemma onExecute_cancel p t post :
  checkGoalCondition t = false -> is_canceling t = true ->
  onExecute p (t :: post) = ([canceled false; sendHover], Some false).
Proof. intros Hgoal Hcancel. simpl. rewrite Hgoal, Hcancel. reflexivity. Qed.

(** The passes that neither end nor cancel the loop contribute their
    commands, and the run goes on with the next pass. *)
Lemma onExecute_running p pre rest :
  Forall running pre ->
  onExecute p (pre ++ rest)
  = (flat_map (controlTick p) pre ++ fst (onExecute p rest),
     snd (onExecute p rest)).
Proof.
  induction 1 as [| t pre [Hgoal Hcancel] _ IH]; simpl.
  - destruct (onExecute p rest); reflexivity.
  - rewrite Hgoal, Hcancel. simpl. rewrite IH. reflexivity.
Qed.

(** The run does not depend on the answers of the motion handler. *)
Lemma onExecute_answering p accepted ticks :
  onExecute p (map (answering accepted) ticks) = onExecute p ticks.
Proof.
  induction ticks as [| t ticks IH]; simpl; [reflexivity |].
  rewrite IH. reflexivity.
Qed.

(** No run reports an abort. *)
Lemma onExecute_no_abort p ticks :
  count isAbort (fst (onExecute p ticks)) = 0%nat.
Proof.
  induction ticks as [| t ticks IH]; simpl; [reflexivity |].
  destruct (checkGoalCondition t); simpl; [reflexivity |].
  destruct (is_canceling t); simpl; [reflexivity |].
  destruct (onExecute p ticks) as [events returned]. exact IH.
Qed.

(** ** Properties of the execution loop *)

(** C2, counterexample.  A pass that finds the cancellation flag set and the
    goal reached ends in success, not in cancellation. *)
Lemma cancel_flag_at_goal_succeeds :
  is_canceling Scenario.arrived_canceling = true /\
  onExecute Scenario.plugin [Scenario.arrived_canceling]
  = ([succeed true; sendHover], Some true).
Proof. split; reflexivity. Qed.

(** C2, as amended.  In every pass the goal condition is tested before the
    cancellation flag.  A pass that finds the cancellation flag set ends the
    run: cancelled, with failure reported and a hold command, when the goal
    condition does not hold; succeeded, with success reported and a hold
    command, when it holds. *)
Theorem goal_tested_before_cancel (p : Plugin) (pre : list Tick) (t : Tick)
    (post : list Tick) :
  Forall running pre ->
  is_canceling t = true ->
  onExecute p (pre ++ t :: post)
  = (flat_map (controlTick p) pre
     ++ (if checkGoalCondition t
         then [succeed true; sendHover]
         else [canceled false; sendHover]),
     Some (checkGoalCondition t)).
Proof.
  intros Hpre Hcancel. rewrite (onExecute_running p pre _ Hpre).
  destruct (checkGoalCondition t) eqn:Hgoal.
  - rewrite (onExecute_goal p t post Hgoal). reflexivity.
  - rewrite (onExecute_cancel p t post Hgoal Hcancel). reflexivity.
Qed.

Lemma goal_tested_before_cancel_witness :
  Forall running [Scenario.rejected; Scenario.flying] /\
  is_canceling Scenario.canceling = true /\
  onExecute Scenario.plugin
    ([Scenario.rejected; Scenario.flying]
     ++ Scenario.canceling :: [Scenario.flying])
  = (flat_map (controlTick Scenario.plugin)
       [Scenario.rejected; Scenario.flying]
     ++ (if checkGoalCondition Scenario.canceling
         then [succeed true; sendHover]
         else [canceled false; sendHover]),
     Some (checkGoalCondition Scenario.canceling)).
Proof.
  assert (Hpre : Forall running [Scenario.rejected; Scenario.flying])
    by (repeat constructor).
  split; [exact Hpre | split; [reflexivity |]].
  apply (goal_tested_before_cancel Scenario.plugin
           [Scenario.rejected; Scenario.flying] Scenario.canceling
           [Scenario.flying] Hpre).
  reflexivity.
Defined.

(** C3, counterexample.  The velocity command of the first pass is rejected;
    the loop goes on, sends the command of the second pass, and ends in
    success at the third: no abort, no failure reported. *)
Lemma rejected_command_is_followed :
  command_accepted Scenario.rejected = false /\
  onExecute Scenario.plugin
    [Scenario.rejected; Scenario.flying; Scenario.arrived]
  = ([sendSpeedCommandWithYawAngle 2 0 0 (yaw 0); publish_feedback 10 0;
      sendSpeedCommandWithYawAngle 2 0 0 (yaw 0); publish_feedback 9 2;
      succeed true; sendHover],
     Some true).
Proof. split; reflexivity. Qed.

(** The passes that go on report no success. *)
Lemma controlTicks_no_succeed p pre :
  ~ In (succeed true) (flat_map (controlTick p) pre).
Proof.
  induction pre as [| t pre IH]; simpl; [tauto |].
  intros [H | [H | H]]; [discriminate | discriminate | exact (IH H)].
Qed.

(** In a trace that ends with [x; y] and has no [x] before, what follows
    any occurrence of [x] is [y] alone. *)
Lemma after_first (x y : Event) (l : list Event) : forall before after,
  ~ In x l -> x <> y ->
  l ++ [x; y] = before ++ x :: after -> after = [y].
Proof.
  induction l as [| e l IH]; intros before after Hl Hxy Heq.
  - destruct before as [| e1 before]; simpl in Heq.
    + injection Heq as <-. reflexivity.
    + injection Heq as _ Hrest.
      destruct before as [| e2 before]; simpl in Hrest.
      * injection Hrest as Hyx _. symmetry in Hyx. contradiction.
      * injection Hrest as _ Hnil. destruct before; discriminate.
  - destruct before as [| e1 before]; simpl in Heq.
    + injection Heq as He _. exfalso. apply Hl. left. exact He.
    + injection Heq as _ Hrest. apply (IH before after); try assumption.
      intro Hin. apply Hl. right. exact Hin.
Qed.

(** C8, counterexample.  The cancellation flag is clear at the first pass
    and set at the second, where the goal condition holds as well: the run
    ends in success. *)
Lemma cancel_then_goal_succeeds :
  is_canceling Scenario.flying = false /\
  is_canceling Scenario.arrived_canceling = true /\
  onExecute Scenario.plugin [Scenario.flying; Scenario.arrived_canceling]
  = ([sendSpeedCommandWithYawAngle 2 0 0 (yaw 0); publish_feedback 9 2;
      succeed true; sendHover],
     Some true).
Proof. repeat split; reflexivity. Qed.

(** C8, as amended.  A cancellation that arrives during pass N, after the
    flag was read, is observed at pass N+1 when the goal condition does not
    hold there: the run then ends with failure reported, returns [false],
    and has issued exactly one hold command. *)
Theorem cancel_observed_next_pass (p : Plugin) (pre : list Tick)
    (tickN tickN1 : Tick) (post : list Tick) :
  Forall running pre ->
  running tickN ->
  is_canceling tickN1 = true ->
  checkGoalCondition tickN1 = false ->
  let run := onExecute p (pre ++ tickN :: tickN1 :: post) in
  fst run
  = flat_map (controlTick p) (pre ++ [tickN]) ++ [canceled false; sendHover] /\
  snd run = Some false /\
  count isHover (fst run) = 1%nat.
Proof.
  intros Hpre HN Hcancel Hgoal.
  assert (Hpre' : Forall running (pre ++ [tickN]))
    by (apply Forall_app; split;
        [exact Hpre | constructor; [exact HN | constructor]]).
  replace (pre ++ tickN :: tickN1 :: post)
    with ((pre ++ [tickN]) ++ tickN1 :: post)
    by (rewrite <- app_assoc; reflexivity).
  cbv zeta. rewrite (onExecute_running p _ _ Hpre').
  rewrite (onExecute_cancel p tickN1 post Hgoal Hcancel). simpl fst. simpl snd.
  split; [reflexivity | split; [reflexivity |]].
  rewrite count_app.
  destruct (count_controlTicks p (pre ++ [tickN])) as (Hh & _ & _).
  rewrite Hh. reflexivity.
Qed.

Lemma cancel_observed_next_pass_witness :
  Forall running [Scenario.rejected] /\
  running Scenario.flying /\
  is_canceling Scenario.canceling = true /\
  checkGoalCondition Scenario.canceling = false /\
  let run :=
    onExecute Scenario.plugin
      ([Scenario.rejected]
       ++ Scenario.flying :: Scenario.canceling :: [Scenario.arrived]) in
  fst run
  = flat_map (controlTick Scenario.plugin)
      ([Scenario.rejected] ++ [Scenario.flying])
    ++ [canceled false; sendHover] /\
  snd run = Some false /\
  count isHover (fst run) = 1%nat.
Proof.
  assert (Hpre : Forall running [Scenario.rejected]) by (repeat constructor).
  assert (HN : running Scenario.flying) by (split; reflexivity).
  split; [exact Hpre | split; [exact HN | split; [reflexivity |]]].
  split; [reflexivity |].
  apply (cancel_observed_next_pass Scenario.plugin [Scenario.rejected]
           Scenario.flying Scenario.canceling [Scenario.arrived] Hpre HN);
    reflexivity.
Defined.

(** C9.  When the goal condition holds at the start of a pass, no
    cancellation pending, the run ends there: success is reported and
    [true] returned, exactly one hold command is issued, the velocity
    commands are those of the earlier passes, and what follows the report of
    success in the trace is the hold command alone. *)
Theorem goal_reached_succeeds (p : Plugin) (pre : list Tick) (t : Tick)
    (post : list Tick) :
  Forall running pre ->
  checkGoalCondition t = true ->
  is_canceling t = false ->
  let run := onExecute p (pre ++ t :: post) in
  fst run = flat_map (controlTick p) pre ++ [succeed true; sendHover] /\
  snd run = Some true /\
  count isHover (fst run) = 1%nat /\
  count isSpeedCommand (fst run) = length pre /\
  forall before after,
    fst run = before ++ succeed true :: after -> after = [sendHover].
Proof.
  intros Hpre Hgoal _. cbv zeta.
  rewrite (onExecute_running p pre _ Hpre), (onExecute_goal p t post Hgoal).
  simpl fst. simpl snd.
  destruct (count_controlTicks p pre) as (Hh & _ & Hs).
  split; [reflexivity | split; [reflexivity |]].
  split; [| split].
  - rewrite count_app, Hh. reflexivity.
  - rewrite count_app, Hs. unfold count. simpl. lia.
  - intros before after Heq.
    apply (after_first (succeed true) sendHover
             (flat_map (controlTick p) pre) before after);
      [apply controlTicks_no_succeed | discriminate | exact Heq].
Qed.

Lemma goal_reached_succeeds_witness :
  Forall running [Scenario.rejected; Scenario.flying] /\
  checkGoalCondition Scenario.arrived = true /\
  is_canceling Scenario.arrived = false /\
  let run :=
    onExecute Scenario.plugin
      ([Scenario.rejected; Scenario.flying]
       ++ Scenario.arrived :: [Scenario.flying]) in
  fst run
  = flat_map (controlTick Scenario.plugin)
      [Scenario.rejected; Scenario.flying]
    ++ [succeed true; sendHover] /\
  snd run = Some true /\
  count isHover (fst run) = 1%nat /\
  count isSpeedCommand (fst run) = length [Scenario.rejected; Scenario.flying] /\
  forall before after,
    fst run = before ++ succeed true :: after -> after = [sendHover].
Proof.
  assert (Hpre : Forall running [Scenario.rejected; Scenario.flying])
    by (repeat constructor).
  split; [exact Hpre | split; [reflexivity | split; [reflexivity |]]].
  apply (goal_reached_succeeds Scenario.plugin
           [Scenario.rejected; Scenario.flying] Scenario.arrived
           [Scenario.flying] Hpre);
    reflexivity.
Defined.

(** ** More on the per-axis clamp *)

(** X1.  For a speed limit that is not negative, [getValidSpeed] is the
    clamp to the interval from [- desired_speed_] to [desired_speed_]. *)
Theorem getValidSpeed_is_clamp (desired_speed_ speed : Q) :
  0 <= desired_speed_ ->
  getValidSpeed desired_speed_ speed
  == Qmax (- desired_speed_) (Qmin speed desired_speed_).
Proof.
  intro Hm. unfold getValidSpeed.
  destruct (Q.min_spec speed desired_speed_) as [[Hlt Hmin] | [Hge Hmin]];
    rewrite Hmin;
    destruct (Q.max_spec (- desired_speed_) speed) as [[Hlt' Hmax] | [Hge' Hmax]];
    destruct (Q.max_spec (- desired_speed_) desired_speed_)
      as [[Hlt2 Hmax2] | [Hge2 Hmax2]];
    try rewrite Hmax; try rewrite Hmax2;
    destruct (Cmp.gtb (Qabs speed) desired_speed_) eqn:Hgt;
    destruct (Cmp.ltb speed 0) eqn:Hneg; cmp_prop;
    abs_split speed; lra.
Qed.

Lemma getValidSpeed_is_clamp_witness :
  0 <= 2 /\ getValidSpeed 2 (-30) == Qmax (- (2)) (Qmin (-30) 2).
Proof.
  split; [discriminate |]. apply (getValidSpeed_is_clamp 2 (-30)). discriminate.
Defined.

(** X2.  For a speed limit that is not negative, clamping twice is clamping
    once. *)
Theorem getValidSpeed_idempotent (desired_speed_ speed : Q) :
  0 <= desired_speed_ ->
  getValidSpeed desired_speed_ (getValidSpeed desired_speed_ speed)
  = getValidSpeed desired_speed_ speed.
Proof.
  intro Hm. apply getValidSpeed_inside, getValidSpeed_bound, Hm.
Qed.

Lemma getValidSpeed_idempotent_witness :
  0 <= 2 /\ getValidSpeed 2 (getValidSpeed 2 10) = getValidSpeed 2 10.
Proof.
  split; [discriminate |]. apply (getValidSpeed_idempotent 2 10). discriminate.
Defined.

(** X3.  For a speed limit that is not negative, [getValidSpeed] keeps the
    order of speeds. *)
Theorem getValidSpeed_monotone (desired_speed_ slow fast : Q) :
  0 <= desired_speed_ ->
  slow <= fast ->
  getValidSpeed desired_speed_ slow <= getValidSpeed desired_speed_ fast.
Proof.
  intros Hm Hle. unfold getValidSpeed.
  destruct (Cmp.gtb (Qabs slow) desired_speed_) eqn:Hgt1;
    destruct (Cmp.gtb (Qabs fast) desired_speed_) eqn:Hgt2;
    destruct (Cmp.ltb slow 0) eqn:Hneg1;
    destruct (Cmp.ltb fast 0) eqn:Hneg2; cmp_prop;
    abs_split slow; abs_split fast; lra.
Qed.

Lemma getValidSpeed_monotone_witness :
  0 <= 2 /\ -30 <= 1 /\ getValidSpeed 2 (-30) <= getValidSpeed 2 1.
Proof.
  split; [discriminate | split; [discriminate |]].
  apply (getValidSpeed_monotone 2 (-30) 1); discriminate.
Defined.

(** X4.  With a negative speed limit [getValidSpeed] answers no input with
    itself: a speed that is not negative becomes the negative limit, and a
    negative speed becomes the positive opposite of the limit, so the sign of
    every speed other than zero is reversed. *)
Theorem getValidSpeed_negative_limit (desired_speed_ speed : Q) :
  desired_speed_ < 0 ->
  getValidSpeed desired_speed_ speed
  = if Cmp.ltb speed 0 then - desired_speed_ else desired_speed_.
Proof.
  intro Hm. unfold getValidSpeed.
  destruct (Cmp.gtb (Qabs speed) desired_speed_) eqn:Hgt; [reflexivity |].
  cmp_prop. pose proof (Qabs_nonneg speed). lra.
Qed.

Lemma getValidSpeed_negative_limit_witness :
  -2 < 0 /\
  getValidSpeed (-2) 1 = if Cmp.ltb 1 0 then - (-2) else -2.
Proof.
  split; [reflexivity |]. apply (getValidSpeed_negative_limit (-2) 1).
  reflexivity.
Defined.

(** ** More on the proportional scaling *)

(** The axis that a pass scales by lands on the magnitude of the limit. *)
Lemma scaled_axis_magnitude m c :
  ~ c == 0 -> Qabs (c * Qabs (m / c)) == Qabs m.
Proof.
  intro Hc. rewrite Qabs_Qmult.
  rewrite (Qabs_pos (Qabs (m / c))) by apply Qabs_nonneg.
  rewrite <- Qabs_Qmult, Qmult_div_r by exact Hc. reflexivity.
Qed.

(** What one pass does: it leaves the state alone, the limit being zero,
    the axis zero or the axis within the limit; or it scales, and the axis
    takes the magnitude of the limit. *)
Lemma scaleStep_cases m st j :
  (scaleStep m st j = st /\
   (m == 0 \/ coeff (fst st) j == 0 \/ Qabs (coeff (fst st) j) <= m)) \/
  (scaleStep m st j
   = (vscale (fst st) (Qabs (m / coeff (fst st) j)),
      coeff (fst st) j :: snd st) /\
   ~ m == 0 /\ ~ coeff (fst st) j == 0 /\
   (m < coeff (fst st) j \/ coeff (fst st) j < - m) /\
   Qabs (coeff (fst (scaleStep m st j)) j) == Qabs m).
Proof.
  destruct st as [speed divisors]. unfold scaleStep. simpl fst. simpl snd.
  destruct (Cmp.eqb m 0 || Cmp.eqb (coeff speed j) 0) eqn:Hskip.
  - left. split; [reflexivity |]. cmp_prop.
    destruct Hskip as [H | H]; cmp_prop; tauto.
  - destruct (Cmp.gtb (coeff speed j) m || Cmp.ltb (coeff speed j) (- m))
      eqn:Hover; cmp_prop.
    + right. split; [reflexivity |].
      split; [assumption | split; [assumption | split]].
      * destruct Hover as [Hover | Hover]; cmp_prop; tauto.
      * simpl fst. rewrite coeff_vscale. apply scaled_axis_magnitude.
        assumption.
    + left. split; [reflexivity |]. right. right.
      abs_split (coeff speed j); lra.
Qed.

Lemma scaleStep_inside m st j :
  Qabs (coeff (fst st) j) <= m -> scaleStep m st j = st.
Proof.
  intro Hin. destruct (scaleStep_cases m st j) as [[Hsame _] | Hscaled];
    [exact Hsame |].
  destruct Hscaled as (_ & _ & _ & Hover & _). exfalso.
  abs_split (coeff (fst st) j); lra.
Qed.

(** The loop, pass by pass. *)
Lemma scaleLoop_unfold m v :
  scaleLoop m v
  = scaleStep m (scaleStep m (scaleStep m (v, []) 0) 1) 2.
Proof. reflexivity. Qed.

(** X7.  Under the proportional policy, an input whose three axes are all
    within the speed limit is returned as it is, and nothing is divided. *)
Theorem proportional_inside_is_identity (max_speed : Q) (speed : Vector3d) :
  Qabs (vx speed) <= max_speed ->
  Qabs (vy speed) <= max_speed ->
  Qabs (vz speed) <= max_speed ->
  delimitSpeed true max_speed speed = speed /\
  proportionalDivisors max_speed speed = [].
Proof.
  intros Hx Hy Hz.
  assert (Hloop : scaleLoop max_speed speed = (speed, [])).
  { rewrite scaleLoop_unfold.
    rewrite (scaleStep_inside max_speed (speed, []) 0) by exact Hx.
    rewrite (scaleStep_inside max_speed (speed, []) 1) by exact Hy.
    apply scaleStep_inside. exact Hz. }
  simpl. unfold proportionalSpeed, proportionalDivisors. rewrite Hloop.
  split; reflexivity.
Qed.

Lemma proportional_inside_is_identity_witness :
  Qabs 1 <= 2 /\ Qabs (-2) <= 2 /\ Qabs 0 <= 2 /\
  delimitSpeed true 2 (mkVector3d 1 (-2) 0) = mkVector3d 1 (-2) 0 /\
  proportionalDivisors 2 (mkVector3d 1 (-2) 0) = [].
Proof.
  split; [discriminate | split; [discriminate | split; [discriminate |]]].
  apply (proportional_inside_is_identity 2 (mkVector3d 1 (-2) 0));
    discriminate.
Defined.

Lemma scaleStep_log m st j :
  Forall (divisible m) (snd st) ->
  Forall (divisible m) (snd (scaleStep m st j)) /\
  (length (snd (scaleStep m st j)) <= S (length (snd st)))%nat.
Proof.
  intro Hlog.
  destruct (scaleStep_cases m st j)
    as [[Hsame _] | (Hscaled & _ & Hc & Hover & _)].
  - rewrite Hsame. split; [exact Hlog | lia].
  - rewrite Hscaled. simpl. split; [| lia].
    constructor; [split; assumption | exact Hlog].
Qed.

(** X8.  Whatever the speed limit and the input, the proportional policy
    divides at most three times, and only by axis values that are not zero
    and lie beyond the limit. *)
Theorem proportional_divisions (max_speed : Q) (speed : Vector3d) :
  Forall (fun d => ~ d == 0 /\ (max_speed < d \/ d < - max_speed))
         (proportionalDivisors max_speed speed) /\
  (length (proportionalDivisors max_speed speed) <= 3)%nat.
Proof.
  unfold proportionalDivisors. rewrite scaleLoop_unfold.
  assert (H0 : Forall (divisible max_speed) (snd (speed, @nil Q)))
    by constructor.
  destruct (scaleStep_log max_speed _ 0 H0) as [H1 L1].
  destruct (scaleStep_log max_speed _ 1 H1) as [H2 L2].
  destruct (scaleStep_log max_speed _ 2 H2) as [H3 L3].
  split; [exact H3 |]. cbn [snd length] in L1. lia.
Qed.

(** ** More on the heading *)

Module HeadingFacts.
Import Reals Qreals Lra.
Local Open Scope R_scope.

Lemma Q2R_two : Q2R 2 = 2.
Proof. unfold Q2R. simpl. lra. Qed.

(** The test on squares decides the test on the norm. *)
Lemma head2_norm_ltb_spec (v : Vector3d) (c : Q) :
  (0 <= c)%Q -> head2_norm_ltb v c = true <-> Norm.head2_norm v < Q2R c.
Proof.
  intro Hc. unfold head2_norm_ltb, Norm.head2_norm.
  rewrite CmpFacts.ltb_lt.
  assert (HC : 0 <= Q2R c) by (replace 0 with (Q2R 0) by lra; apply Qle_Rle, Hc).
  set (X := Q2R (vx v)). set (Y := Q2R (vy v)).
  assert (Hsum : 0 <= X * X + Y * Y) by nra.
  assert (Hs0 : 0 <= sqrt (X * X + Y * Y)) by apply sqrt_pos.
  assert (Hss : sqrt (X * X + Y * Y) * sqrt (X * X + Y * Y) = X * X + Y * Y)
    by (apply sqrt_sqrt; exact Hsum).
  split.
  - intro Hlt. apply Qlt_Rlt in Hlt.
    rewrite Q2R_plus, !Q2R_mult in Hlt. fold X Y in Hlt.
    destruct (Rlt_le_dec (sqrt (X * X + Y * Y)) (Q2R c)) as [H | H];
      [exact H | exfalso; nra].
  - intro Hlt. apply Rlt_Qlt. rewrite Q2R_plus, !Q2R_mult. fold X Y. nra.
Qed.

(** X12.  When the yaw of the goal is not ignored and the horizontal norm
    of the position error is 2 or more, the heading of the pass is
    [atan2f] of the y and x errors, whatever the z error. *)
Theorem far_target_heads_to_it (actualYaw : Q) (speed_setpoint : Vector3d) :
  2 <= Norm.head2_norm speed_setpoint ->
  selectYaw false actualYaw speed_setpoint
  = atan2f (vy speed_setpoint) (vx speed_setpoint).
Proof.
  intro Hfar. unfold selectYaw.
  destruct (head2_norm_ltb speed_setpoint 2) eqn:Hnear; [| reflexivity].
  apply head2_norm_ltb_spec in Hnear; [| discriminate].
  rewrite Q2R_two in Hnear. lra.
Qed.

Lemma norm_of_0_2_0 : 2 <= Norm.head2_norm (mkVector3d 0 2 0).
Proof.
  destruct (Rlt_le_dec (Norm.head2_norm (mkVector3d 0 2 0)) 2) as [H | H];
    [| exact H].
  rewrite <- Q2R_two in H. apply head2_norm_ltb_spec in H; discriminate.
Qed.

Lemma far_target_heads_to_it_witness :
  2 <= Norm.head2_norm (mkVector3d 0 2 0) /\
  selectYaw false (1 # 2) (mkVector3d 0 2 0) = atan2f 2 0.
Proof.
  split; [exact norm_of_0_2_0 |].
  apply (far_target_heads_to_it (1 # 2) (mkVector3d 0 2 0)).
  exact norm_of_0_2_0.
Defined.

End HeadingFacts.

(** ** More on the acceptance of a goal and on initialisation *)

(** X13.  The speed limit of a goal outlives it: after a goal with a
    [max_speed] other than zero, a goal whose [max_speed] is zero runs with
    the speed limit of the earlier goal. *)
Theorem speed_limit_carries_over (p : Plugin) (first second : Goal) :
  ~ max_speed first == 0 ->
  max_speed second == 0 ->
  desired_speed_ (fst (onAccepted (fst (onAccepted p first)) second))
  = max_speed first.
Proof.
  intros Hfirst Hsecond. simpl.
  apply CmpFacts.eqb_eq in Hsecond. apply CmpFacts.eqb_neq in Hfirst.
  rewrite Hsecond, Hfirst. reflexivity.
Qed.

Lemma speed_limit_carries_over_witness :
  ~ 3 == 0 /\ 0 == 0 /\
  desired_speed_
    (fst (onAccepted
            (fst (onAccepted Scenario.plugin
                    (mkGoal (mkVector3d 1 1 1) 3 false)))
            (mkGoal (mkVector3d 5 5 5) 0 true)))
  = 3.
Proof.
  assert (H3 : ~ 3 == 0) by discriminate.
  split; [exact H3 | split; [reflexivity |]].
  apply (speed_limit_carries_over Scenario.plugin
           (mkGoal (mkVector3d 1 1 1) 3 false)
           (mkGoal (mkVector3d 5 5 5) 0 true));
    [exact H3 | reflexivity].
Defined.


(** ** More on runs *)

(** X15.  The loop is still running after the given passes exactly when
    none of them found the goal reached or a cancellation pending. *)
Theorem still_running_iff (p : Plugin) (ticks : list Tick) :
  snd (onExecute p ticks) = None <-> Forall running ticks.
Proof.
  induction ticks as [| t ticks IH]; simpl.
  - split; [constructor | reflexivity].
  - destruct (checkGoalCondition t) eqn:Hgoal; simpl.
    + split; [discriminate |]. intro H. inversion H as [| ? ? [Hg _] _].
      congruence.
    + destruct (is_canceling t) eqn:Hcancel; simpl.
      * split; [discriminate |]. intro H. inversion H as [| ? ? [_ Hc] _].
        congruence.
      * destruct (onExecute p ticks) as [events returned]. simpl in *.
        rewrite IH. split.
        -- intro H. constructor; [split; assumption | exact H].
        -- intro H. inversion H. assumption.
Qed.

(** X16.  The hold command and the terminal report are issued once when the
    run returns, and not at all while the loop is running. *)
Theorem hold_and_report_once (p : Plugin) (ticks : list Tick) :
  let run := onExecute p ticks in
  count isHover (fst run)
  = match snd run with Some _ => 1%nat | None => 0%nat end /\
  count isReport (fst run)
  = match snd run with Some _ => 1%nat | None => 0%nat end.
Proof.
  induction ticks as [| t ticks IH]; simpl; [split; reflexivity |].
  destruct (checkGoalCondition t); simpl; [split; reflexivity |].
  destruct (is_canceling t); simpl; [split; reflexivity |].
  destruct (onExecute p ticks) as [events returned]. exact IH.
Qed.

(** X17.  A run that returns [success] ended at the first pass that found
    the goal reached or a cancellation pending: [success] tells whether the
    goal was reached there, the trace is the commands of the passes before
    followed by the matching report and the hold command. *)
Theorem return_matches_report (p : Plugin) (ticks : list Tick)
    (success : bool) :
  snd (onExecute p ticks) = Some success ->
  exists pre t post,
    ticks = pre ++ t :: post /\
    Forall running pre /\
    checkGoalCondition t = success /\
    (checkGoalCondition t = true \/ is_canceling t = true) /\
    fst (onExecute p ticks) = flat_map (controlTick p) pre ++ ending success.
Proof.
  induction ticks as [| t ticks IH]; simpl; [discriminate |].
  destruct (checkGoalCondition t) eqn:Hgoal; simpl.
  - intro H. injection H as <-. exists [], t, ticks.
    rewrite Hgoal. repeat split; auto.
  - destruct (is_canceling t) eqn:Hcancel; simpl.
    + intro H. injection H as <-. exists [], t, ticks.
      rewrite Hgoal, Hcancel. repeat split; auto.
    + destruct (onExecute p ticks) as [events returned]. simpl in *.
      intro H. destruct (IH H) as (pre & t' & post & -> & Hpre & Hg & Hw & Htr).
      exists (t :: pre), t', post. repeat split; try assumption.
      * constructor; [split; assumption | exact Hpre].
      * simpl. rewrite Htr. reflexivity.
Qed.

Lemma return_matches_report_witness :
  snd (onExecute Scenario.plugin [Scenario.flying; Scenario.canceling])
  = Some false /\
  exists pre t post,
    [Scenario.flying; Scenario.canceling] = pre ++ t :: post /\
    Forall running pre /\
    checkGoalCondition t = false /\
    (checkGoalCondition t = true \/ is_canceling t = true) /\
    fst (onExecute Scenario.plugin [Scenario.flying; Scenario.canceling])
    = flat_map (controlTick Scenario.plugin) pre ++ ending false.
Proof.
  split; [reflexivity |].
  apply (return_matches_report Scenario.plugin
           [Scenario.flying; Scenario.canceling] false).
  reflexivity.
Defined.

(** X21.  Every pass that sends a velocity command publishes one feedback:
    a run holds as many feedbacks as velocity commands, and no more of
    either than passes observed. *)
Theorem feedback_per_command (p : Plugin) (ticks : list Tick) :
  count isFeedback (fst (onExecute p ticks))
  = count isSpeedCommand (fst (onExecute p ticks)) /\
  (count isSpeedCommand (fst (onExecute p ticks)) <= length ticks)%nat.
Proof.
  induction ticks as [| t ticks [IHf IHs]]; simpl; [split; auto |].
  destruct (checkGoalCondition t); simpl; [split; [reflexivity | ] |].
  - unfold count. simpl. lia.
  - destruct (is_canceling t); simpl.
    + unfold count. simpl. split; [reflexivity | lia].
    + destruct (onExecute p ticks) as [events returned].
      unfold count in *. simpl in *. split; [congruence | lia].
Qed.


(** ** Facts on rounding *)

Lemma RNE_spec q :
  inject_Z (RNE q) - (1 # 2) <= q /\ q <= inject_Z (RNE q) + (1 # 2) /\
  (q == inject_Z (RNE q) + (1 # 2) -> Z.even (RNE q) = true) /\
  (q == inject_Z (RNE q) - (1 # 2) -> Z.even (RNE q) = true).
Proof.
  unfold RNE. pose proof (Qfloor_le q) as Hlo. pose proof (Qlt_floor q) as Hhi.
  rewrite inject_Z_plus in Hhi. set (k := Qfloor q) in *.
  change (inject_Z 1) with 1 in Hhi.
  destruct (Qcompare_spec (q - inject_Z k) (1 # 2)) as [Heq | Hlt | Hgt].
  - destruct (Z.even k) eqn:Hev.
    + repeat split; try lra; intros; try assumption; lra.
    + rewrite inject_Z_plus. change (inject_Z 1) with 1.
      assert (Hev' : Z.even (k + 1) = true).
      { rewrite Z.add_1_r, Z.even_succ, <- Z.negb_even, Hev. reflexivity. }
      repeat split; try lra; intros; try assumption; lra.
  - repeat split; try lra; intros; lra.
  - rewrite inject_Z_plus. change (inject_Z 1) with 1.
    repeat split; try lra; intros; lra.
Qed.

Lemma Z_Q_succ_le (a b : Z) : (a < b)%Z -> inject_Z a + 1 <= inject_Z b.
Proof.
  intro H. change 1 with (inject_Z 1). rewrite <- inject_Z_plus, <- Zle_Qle. lia.
Qed.

Lemma RNE_mono q1 q2 : q1 <= q2 -> (RNE q1 <= RNE q2)%Z.
Proof.
  intro Hle. destruct (Z_le_gt_dec (RNE q1) (RNE q2)) as [H | H]; [exact H |].
  exfalso. apply Z.gt_lt, Z_Q_succ_le in H.
  destruct (RNE_spec q1) as (L1 & U1 & _ & E1).
  destruct (RNE_spec q2) as (L2 & U2 & E2 & _).
  assert (Hk : inject_Z (RNE q1) == inject_Z (RNE q2) + 1) by lra.
  assert (H1 : Z.even (RNE q1) = true) by (apply E1; lra).
  assert (H2 : Z.even (RNE q2) = true) by (apply E2; lra).
  change 1 with (inject_Z 1) in Hk. rewrite <- inject_Z_plus in Hk.
  apply (proj1 (inject_Z_injective _ _)) in Hk. rewrite Hk, Z.add_1_r, Z.even_succ in H1.
  rewrite <- Z.negb_even, H2 in H1. discriminate.
Qed.

Lemma RNE_Z k : RNE (inject_Z k) = k.
Proof.
  destruct (RNE_spec (inject_Z k)) as (L & U & _ & _).
  destruct (Z.lt_trichotomy (RNE (inject_Z k)) k) as [H | [H | H]];
    [| exact H |]; apply Z_Q_succ_le in H; lra.
Qed.

Lemma inject_Z_pos z : (0 < z)%Z -> 0 < inject_Z z.
Proof. intro H. change 0 with (inject_Z 0). rewrite <- Zlt_Qlt. exact H. Qed.

Lemma RNE_nonneg q : 0 <= q -> (0 <= RNE q)%Z.
Proof.
  intro H. rewrite <- (RNE_Z 0). apply RNE_mono. exact H.
Qed.

(** Below [2 ^ (log2 (floor X) + 1)]. *)
Lemma below_next_pow2 X :
  0 <= X -> X < inject_Z (2 ^ (Z.log2 (Qfloor X) + 1)).
Proof.
  intro H0. pose proof (Qlt_floor X) as Hhi.
  assert (Hf : (0 <= Qfloor X)%Z)
    by (rewrite <- (Qfloor_Z 0); apply Qfloor_resp_le; exact H0).
  assert (Hz : (Qfloor X + 1 <= 2 ^ (Z.log2 (Qfloor X) + 1))%Z).
  { destruct (Z.eq_dec (Qfloor X) 0) as [E | E].
    - rewrite E. simpl. lia.
    - pose proof (Z.log2_spec (Qfloor X)) as Hs. rewrite Z.add_1_r. lia. }
  rewrite Zle_Qle in Hz. lra.
Qed.

Lemma roundZ_mono p X Y :
  (0 < p)%Z -> 0 <= X -> X <= Y -> (roundZ p X <= roundZ p Y)%Z.
Proof.
  intros Hp HX HXY. unfold roundZ.
  assert (HY : 0 <= Y) by lra.
  assert (HfX : (0 <= Qfloor X)%Z)
    by (rewrite <- (Qfloor_Z 0); apply Qfloor_resp_le; exact HX).
  assert (Hff : (Qfloor X <= Qfloor Y)%Z) by (apply Qfloor_resp_le; exact HXY).
  pose proof (Z.log2_le_mono _ _ Hff) as Hk.
  pose proof (Z.log2_nonneg (Qfloor X)) as HkX.
  set (kX := Z.log2 (Qfloor X)) in *. set (kY := Z.log2 (Qfloor Y)) in *.
  set (eX := Z.max (kX - p + 1) 0). set (eY := Z.max (kY - p + 1) 0).
  assert (HeX : (0 <= eX)%Z) by lia. assert (HeY : (0 <= eY)%Z) by lia.
  assert (HPX : (0 < 2 ^ eX)%Z) by (apply Z.pow_pos_nonneg; lia).
  assert (HPY : (0 < 2 ^ eY)%Z) by (apply Z.pow_pos_nonneg; lia).
  assert (HQX : 0 < inject_Z (2 ^ eX)) by (apply inject_Z_pos; exact HPX).
  assert (HQY : 0 < inject_Z (2 ^ eY)) by (apply inject_Z_pos; exact HPY).
  destruct (Z.eq_dec eX eY) as [Heq | Hne].
  - rewrite <- Heq. apply Z.mul_le_mono_nonneg_r; [lia |].
    apply RNE_mono. apply Qmult_le_compat_r; [exact HXY |].
    apply Qlt_le_weak, Qinv_lt_0_compat, HQX.
  - assert (Hlt : (eX < eY)%Z) by lia.
    assert (Hup : (RNE (X / inject_Z (2 ^ eX)) * 2 ^ eX <= 2 ^ p * 2 ^ eX)%Z).
    { apply Z.mul_le_mono_nonneg_r; [lia |].
      rewrite <- (RNE_Z (2 ^ p)). apply RNE_mono.
      apply Qle_shift_div_r; [exact HQX |].
      rewrite <- inject_Z_mult, <- Z.pow_add_r by lia.
      pose proof (below_next_pow2 X HX) as Hb. fold kX in Hb.
      assert (Hpow : (2 ^ (kX + 1) <= 2 ^ (p + eX))%Z)
        by (apply Z.pow_le_mono_r; lia).
      rewrite Zle_Qle in Hpow. lra. }
    assert (Hdn : (2 ^ (p - 1) * 2 ^ eY <= RNE (Y / inject_Z (2 ^ eY)) * 2 ^ eY)%Z).
    { apply Z.mul_le_mono_nonneg_r; [lia |].
      rewrite <- (RNE_Z (2 ^ (p - 1))) at 1. apply RNE_mono.
      apply Qle_shift_div_l; [exact HQY |].
      rewrite <- inject_Z_mult, <- Z.pow_add_r by lia.
      assert (HeY' : eY = (kY - p + 1)%Z) by lia.
      assert (HfY : (0 < Qfloor Y)%Z).
      { destruct (Z.eq_dec (Qfloor Y) 0) as [E | E]; [| lia].
        exfalso. unfold kY in HeY'. rewrite E in HeY'. simpl in HeY'. lia. }
      pose proof (Z.log2_spec (Qfloor Y) HfY) as [Hs _]. fold kY in Hs.
      replace (p - 1 + eY)%Z with kY by lia.
      pose proof (Qfloor_le Y) as HflY. rewrite Zle_Qle in Hs. lra. }
    assert (Hmid : (2 ^ p * 2 ^ eX <= 2 ^ (p - 1) * 2 ^ eY)%Z).
    { rewrite <- !Z.pow_add_r by lia. apply Z.pow_le_mono_r; lia. }
    lia.
Qed.

Lemma roundZ_nonneg p X : 0 <= X -> (0 <= roundZ p X)%Z.
Proof.
  intro HX. unfold roundZ.
  set (e := Z.max (Z.log2 (Qfloor X) - p + 1) 0).
  assert (HP : (0 < 2 ^ e)%Z) by (apply Z.pow_pos_nonneg; lia).
  apply Z.mul_nonneg_nonneg; [| lia]. apply RNE_nonneg.
  apply Qle_shift_div_l; [apply inject_Z_pos; exact HP |].
  rewrite Qmult_0_l. exact HX.
Qed.

Lemma roundZ_compat p X Y :
  (0 < p)%Z -> 0 <= X -> X == Y -> roundZ p X = roundZ p Y.
Proof.
  intros Hp HX HXY.
  apply Z.le_antisymm; apply roundZ_mono; first [exact Hp | lra].
Qed.

Lemma roundZ_zero p : (0 < p)%Z -> roundZ p 0 = 0%Z.
Proof.
  intro Hp. unfold roundZ. change (Qfloor 0) with 0%Z. change (Z.log2 0) with 0%Z.
  replace (Z.max (0 - p + 1) 0) with 0%Z by lia. reflexivity.
Qed.

Lemma Qmake_le (a b : Z) (N : positive) : (a <= b)%Z -> a # N <= b # N.
Proof. intro H. unfold Qle. simpl. nia. Qed.

Lemma Qmake_nonneg (a : Z) (N : positive) : (0 <= a)%Z -> 0 <= a # N.
Proof. intro H. unfold Qle. simpl. lia. Qed.

Lemma Qmake_opp (a : Z) (N : positive) : (- a # N) == - (a # N).
Proof. reflexivity. Qed.

Section Round.
Variable p : Z.
Variable N : positive.
Hypothesis Hp : (0 < p)%Z.

Lemma scale_pos : 0 < inject_Z (Zpos N).
Proof. apply inject_Z_pos. reflexivity. Qed.

Lemma round_pos_eq x :
  0 <= x -> round p N x == roundZ p (x * inject_Z (Zpos N)) # N.
Proof.
  intro H. unfold round. apply Qle_bool_iff in H. rewrite H.
  apply Qred_correct.
Qed.

Lemma round_neg_eq x :
  x < 0 -> round p N x == - (roundZ p (- x * inject_Z (Zpos N)) # N).
Proof.
  intro H. unfold round.
  destruct (Qle_bool 0 x) eqn:E; [apply Qle_bool_iff in E; lra |].
  rewrite Qred_correct. reflexivity.
Qed.

Lemma round_nonneg x : 0 <= x -> 0 <= round p N x.
Proof.
  intro H. rewrite (round_pos_eq x H).
  apply Qmake_nonneg, roundZ_nonneg.
  pose proof scale_pos. nra.
Qed.

Lemma round_nonpos x : x <= 0 -> round p N x <= 0.
Proof.
  intro H. destruct (Qlt_le_dec x 0) as [Hneg | Hpos].
  - rewrite (round_neg_eq x Hneg).
    assert (0 <= roundZ p (- x * inject_Z (Zpos N)) # N).
    { apply Qmake_nonneg, roundZ_nonneg. pose proof scale_pos. nra. }
    lra.
  - rewrite (round_pos_eq x Hpos).
    rewrite (roundZ_compat p _ 0 Hp); [rewrite roundZ_zero by exact Hp; unfold Qle; simpl; lia | |].
    + pose proof scale_pos. nra.
    + assert (x == 0) by lra. rewrite H0. ring.
Qed.

Lemma round_mono x y : x <= y -> round p N x <= round p N y.
Proof.
  intro Hxy. pose proof scale_pos as HN.
  destruct (Qlt_le_dec x 0) as [Hx | Hx]; destruct (Qlt_le_dec y 0) as [Hy | Hy].
  - rewrite (round_neg_eq x Hx), (round_neg_eq y Hy).
    apply Qopp_le_compat, Qmake_le, roundZ_mono; [exact Hp | nra | nra].
  - apply Qle_trans with 0; [apply round_nonpos; lra | apply round_nonneg; exact Hy].
  - lra.
  - rewrite (round_pos_eq x Hx), (round_pos_eq y Hy).
    apply Qmake_le, roundZ_mono; [exact Hp | nra | nra].
Qed.

Lemma round_compat x y : x == y -> round p N x == round p N y.
Proof. intro H. apply Qle_antisym; apply round_mono; lra. Qed.

Lemma round_opp x : round p N (- x) == - round p N x.
Proof.
  pose proof scale_pos as HN.
  destruct (Qlt_le_dec x 0) as [Hx | Hx].
  - rewrite (round_neg_eq x Hx), (round_pos_eq (- x)) by lra. lra.
  - destruct (Qlt_le_dec 0 x) as [Hx' | Hx'].
    + rewrite (round_pos_eq x Hx), (round_neg_eq (- x)) by lra.
      rewrite (roundZ_compat p (- - x * inject_Z (Zpos N)) (x * inject_Z (Zpos N)) Hp);
        [reflexivity | nra | ring].
    + assert (H0 : x == 0) by lra.
      assert (Hr : round p N 0 == 0).
      { apply Qle_antisym; [apply round_nonpos | apply round_nonneg]; lra. }
      rewrite (round_compat (- x) 0), (round_compat x 0), Hr by lra. reflexivity.
Qed.

End Round.

(** ** Facts on the rounded layer *)

Module RoundedFacts.
Import Rounded.

Lemma toDouble_mono x y : x <= y -> toDouble x <= toDouble y.
Proof. apply round_mono. reflexivity. Qed.

Lemma toFloat_mono x y : x <= y -> toFloat x <= toFloat y.
Proof. apply round_mono. reflexivity. Qed.

Lemma toDouble_opp x : toDouble (- x) == - toDouble x.
Proof. apply round_opp. reflexivity. Qed.

Lemma toFloat_opp x : toFloat (- x) == - toFloat x.
Proof. apply round_opp. reflexivity. Qed.

Lemma toDouble_compat x y : x == y -> toDouble x == toDouble y.
Proof. apply round_compat. reflexivity. Qed.

Lemma toDouble_nonneg x : 0 <= x -> 0 <= toDouble x.
Proof. apply round_nonneg. Qed.

Lemma toDouble_nonpos x : x <= 0 -> toDouble x <= 0.
Proof. apply round_nonpos. reflexivity. Qed.

Lemma toDouble_one : toDouble 1 == 1.
Proof. vm_compute. reflexivity. Qed.

(** Rounding does not leave an interval whose ends are numbers of the
    format. *)
Lemma toDouble_within x bound :
  toDouble bound == bound -> Qabs x <= bound -> Qabs (toDouble x) <= bound.
Proof.
  intros Hb Hx. apply Qabs_Qle_condition in Hx. destruct Hx as [Hlo Hhi].
  assert (Hlo' : toDouble (- bound) <= toDouble x) by (apply toDouble_mono, Hlo).
  assert (Hhi' : toDouble x <= toDouble bound) by (apply toDouble_mono, Hhi).
  rewrite toDouble_opp in Hlo'. apply Qabs_Qle_condition. split; lra.
Qed.

Lemma toFloat_within x bound :
  toFloat bound == bound -> Qabs x <= bound -> Qabs (toFloat x) <= bound.
Proof.
  intros Hb Hx. apply Qabs_Qle_condition in Hx. destruct Hx as [Hlo Hhi].
  assert (Hlo' : toFloat (- bound) <= toFloat x) by (apply toFloat_mono, Hlo).
  assert (Hhi' : toFloat x <= toFloat bound) by (apply toFloat_mono, Hhi).
  rewrite toFloat_opp in Hlo'. apply Qabs_Qle_condition. split; lra.
Qed.

(** The magnitude of a [double] is a [double]. *)
Lemma isDouble_abs x : isDouble x -> toDouble (Qabs x) == Qabs x.
Proof.
  intros [Hx _]. abs_split x.
  - rewrite (toDouble_compat _ _ Habs), Hx, Habs. reflexivity.
  - rewrite (toDouble_compat _ _ Habs), toDouble_opp, Hx, Habs. reflexivity.
Qed.

Lemma rounded_coeff_clampSpeed m v j :
  coeff (clampSpeed m v) j = getValidSpeed m (toFloat (coeff v j)).
Proof. destruct j as [| [| j]]; reflexivity. Qed.

Lemma rounded_coeff_vscale v s j : coeff (vscale v s) j = toDouble (coeff v j * s).
Proof. destruct j as [| [| j]]; reflexivity. Qed.

(** What one pass does: nothing, or a scaling by a factor that is not
    negative, and at most one when the limit is not negative. *)
Lemma rounded_scaleStep_cases m st j :
  scaleStep m st j = st \/
  exists factor,
    0 <= factor /\ (0 <= m -> factor <= 1) /\
    scaleStep m st j = (vscale (fst st) factor, snd st ++ [factor]).
Proof.
  destruct st as [speed factors]. unfold scaleStep. simpl fst. simpl snd.
  destruct (Cmp.eqb m 0 || Cmp.eqb (coeff speed j) 0) eqn:Hskip;
    [left; reflexivity |].
  destruct (Cmp.gtb (coeff speed j) m || Cmp.ltb (coeff speed j) (- m))
    eqn:Hover; [| left; reflexivity].
  right. exists (Qabs (toDouble (m / coeff speed j))). cmp_prop.
  split; [apply Qabs_nonneg | split; [| reflexivity]].
  intro Hm.
  assert (Hout : m < coeff speed j \/ coeff speed j < - m)
    by (destruct Hover as [Hover | Hover]; cmp_prop; tauto).
  destruct (scale_factor m (coeff speed j)) as [_ Hf1]; try assumption.
  apply toDouble_within; [apply toDouble_one | exact (Hf1 Hm)].
Qed.

Lemma rounded_scaleLoop_unfold m v :
  scaleLoop m v = scaleStep m (scaleStep m (scaleStep m (v, []) 0) 1) 2.
Proof. reflexivity. Qed.

(** A pass keeps every axis within a bound that is a [double]. *)
Lemma scaleStep_within m st j i bound :
  0 <= m -> toDouble bound == bound ->
  Qabs (coeff (fst st) i) <= bound ->
  Qabs (coeff (fst (scaleStep m st j)) i) <= bound.
Proof.
  intros Hm Hb Hin.
  destruct (rounded_scaleStep_cases m st j) as [Hsame | (f & Hf0 & Hf1 & Hscaled)].
  - rewrite Hsame. exact Hin.
  - rewrite Hscaled. simpl fst. rewrite rounded_coeff_vscale.
    apply toDouble_within; [exact Hb |].
    rewrite Qabs_Qmult, (Qabs_pos f) by exact Hf0.
    specialize (Hf1 Hm). pose proof (Qabs_nonneg (coeff (fst st) i)). nra.
Qed.

Lemma proportionalSpeed_shrinks m v j :
  0 <= m -> isDouble (coeff v j) ->
  Qabs (coeff (proportionalSpeed m v) j) <= Qabs (coeff v j).
Proof.
  intros Hm Hd. apply isDouble_abs in Hd.
  unfold proportionalSpeed. rewrite rounded_scaleLoop_unfold.
  repeat (apply scaleStep_within; [exact Hm | exact Hd |]).
  simpl. apply Qle_refl.
Qed.

End RoundedFacts.

(** ** Properties of the limiter with its roundings *)

(** C1, counterexample.  One tenth, as a [double], is within a speed limit
    of 2, and the per-axis clamp does not return it: the axis comes back
    narrowed to [float], 13421773 / 2^27. *)
Lemma clamp_rounds_one_tenth :
  Rounded.isDouble Rounded.tenth /\
  Qabs (coeff (mkVector3d Rounded.tenth 0 0) 0) <= 2 /\
  coeff (Rounded.delimitSpeed false 2 (mkVector3d Rounded.tenth 0 0)) 0
  = 13421773 # 134217728 /\
  ~ coeff (Rounded.delimitSpeed false 2 (mkVector3d Rounded.tenth 0 0)) 0
    == coeff (mkVector3d Rounded.tenth 0 0) 0.
Proof.
  split; [vm_compute; split; [reflexivity | discriminate] |].
  split; [vm_compute; discriminate |].
  split; [vm_compute; reflexivity |].
  vm_compute. discriminate.
Qed.

(** C1, as amended.  Under the per-axis clamp policy, for a speed limit
    above zero, the magnitude of every axis of the output is at most the
    speed limit, and an axis whose input magnitude is at most the speed limit
    comes back narrowed to [float]: it is the input itself exactly when the
    input is a [float]. *)
Theorem clamp_within_max_speed (max_speed : Q) (position_error : Vector3d)
    (i : nat) :
  0 < max_speed ->
  Rounded.isFloat max_speed ->
  Qabs (coeff (Rounded.delimitSpeed false max_speed position_error) i)
  <= max_speed /\
  (Qabs (coeff position_error i) <= max_speed ->
   coeff (Rounded.delimitSpeed false max_speed position_error) i
   = Rounded.toFloat (coeff position_error i)) /\
  (Qabs (coeff position_error i) <= max_speed ->
   (coeff (Rounded.delimitSpeed false max_speed position_error) i
    == coeff position_error i
    <-> Rounded.isFloat (coeff position_error i))).
Proof.
  intros Hmax [Hfloat Hfinite]. simpl. rewrite RoundedFacts.rounded_coeff_clampSpeed.
  assert (Hin : Qabs (coeff position_error i) <= max_speed ->
                getValidSpeed max_speed (Rounded.toFloat (coeff position_error i))
                = Rounded.toFloat (coeff position_error i)).
  { intro H. apply getValidSpeed_inside, RoundedFacts.toFloat_within;
      assumption. }
  split; [apply getValidSpeed_bound; lra | split; [exact Hin |]].
  intro H. rewrite (Hin H). unfold Rounded.isFloat.
  rewrite (Qabs_pos max_speed) in Hfinite by lra.
  split; [intro Heq; split; [exact Heq | lra] | intros [Heq _]; exact Heq].
Qed.

Lemma clamp_within_max_speed_witness :
  0 < 2 /\ Rounded.isFloat 2 /\
  Qabs (coeff (Rounded.delimitSpeed false 2
                 (mkVector3d Rounded.tenth (-30) 1)) 0) <= 2 /\
  (Qabs (coeff (mkVector3d Rounded.tenth (-30) 1) 0) <= 2 ->
   coeff (Rounded.delimitSpeed false 2 (mkVector3d Rounded.tenth (-30) 1)) 0
   = Rounded.toFloat (coeff (mkVector3d Rounded.tenth (-30) 1) 0)) /\
  (Qabs (coeff (mkVector3d Rounded.tenth (-30) 1) 0) <= 2 ->
   (coeff (Rounded.delimitSpeed false 2 (mkVector3d Rounded.tenth (-30) 1)) 0
    == coeff (mkVector3d Rounded.tenth (-30) 1) 0
    <-> Rounded.isFloat (coeff (mkVector3d Rounded.tenth (-30) 1) 0))).
Proof.
  assert (H2 : Rounded.isFloat 2)
    by (vm_compute; split; [reflexivity | discriminate]).
  split; [reflexivity | split; [exact H2 |]].
  apply (clamp_within_max_speed 2 (mkVector3d Rounded.tenth (-30) 1) 0);
    [reflexivity | exact H2].
Defined.

(** C10, counterexample.  Under the per-axis clamp with a speed limit of 2,
    the axis one tenth comes back larger than it went in. *)
Lemma clamp_amplifies_one_tenth :
  0 <= 2 /\ Rounded.isDouble Rounded.tenth /\
  ~ Qabs (coeff (Rounded.delimitSpeed false 2 (mkVector3d Rounded.tenth 0 0)) 0)
    <= Qabs (coeff (mkVector3d Rounded.tenth 0 0) 0).
Proof.
  split; [discriminate |].
  split; [vm_compute; split; [reflexivity | discriminate] |].
  vm_compute. intro H. apply H. reflexivity.
Qed.

(** C10, as amended.  For a speed limit that is not negative and an input
    axis that is a [double]: under the proportional policy the magnitude of
    the output axis is at most that of the input axis; under the per-axis
    clamp it is at most that of the input axis narrowed to [float], hence at
    most that of the input axis when this is a [float]. *)
Theorem limiter_never_amplifies (max_speed : Q) (speed : Vector3d) (j : nat) :
  0 <= max_speed ->
  Rounded.isDouble (coeff speed j) ->
  Qabs (coeff (Rounded.delimitSpeed true max_speed speed) j)
  <= Qabs (coeff speed j) /\
  Qabs (coeff (Rounded.delimitSpeed false max_speed speed) j)
  <= Qabs (Rounded.toFloat (coeff speed j)) /\
  (Rounded.isFloat (coeff speed j) ->
   Qabs (coeff (Rounded.delimitSpeed false max_speed speed) j)
   <= Qabs (coeff speed j)).
Proof.
  intros Hmax Hdouble. simpl. rewrite RoundedFacts.rounded_coeff_clampSpeed.
  split; [apply RoundedFacts.proportionalSpeed_shrinks; assumption |].
  split; [apply getValidSpeed_shrinks; exact Hmax |].
  intros [Hfloat _].
  rewrite <- Hfloat at 2. apply getValidSpeed_shrinks. exact Hmax.
Qed.

Lemma limiter_never_amplifies_witness :
  0 <= 2 /\ Rounded.isDouble (coeff (mkVector3d 10 (-30) 5) 1) /\
  Qabs (coeff (Rounded.delimitSpeed true 2 (mkVector3d 10 (-30) 5)) 1)
  <= Qabs (coeff (mkVector3d 10 (-30) 5) 1) /\
  Qabs (coeff (Rounded.delimitSpeed false 2 (mkVector3d 10 (-30) 5)) 1)
  <= Qabs (Rounded.toFloat (coeff (mkVector3d 10 (-30) 5) 1)) /\
  (Rounded.isFloat (coeff (mkVector3d 10 (-30) 5) 1) ->
   Qabs (coeff (Rounded.delimitSpeed false 2 (mkVector3d 10 (-30) 5)) 1)
   <= Qabs (coeff (mkVector3d 10 (-30) 5) 1)).
Proof.
  assert (Hd : Rounded.isDouble (coeff (mkVector3d 10 (-30) 5) 1))
    by (vm_compute; split; [reflexivity | discriminate]).
  split; [discriminate | split; [exact Hd |]].
  apply (limiter_never_amplifies 2 (mkVector3d 10 (-30) 5) 1);
    [discriminate | exact Hd].
Defined.


(** ** Scaling by a list of factors *)

Lemma exactlyScaledBy_veq fs : forall a b,
  veq a b -> veq (exactlyScaledBy fs a) (exactlyScaledBy fs b).
Proof.
  induction fs as [| f fs IH]; intros a b Hab; simpl; [exact Hab |].
  apply IH, vscale_veq, Hab.
Qed.

Lemma exactlyScaledBy_vscale fs : forall v a,
  veq (exactlyScaledBy fs (vscale v a)) (vscale v (fold_left Qmult fs a)).
Proof.
  induction fs as [| f fs IH]; intros v a; simpl; [apply veq_refl |].
  eapply veq_trans; [| apply IH].
  apply exactlyScaledBy_veq, vscale_vscale.
Qed.

(** Without rounding, scaling by factors is scaling by their product. *)
Lemma exactlyScaledBy_product fs v :
  veq (exactlyScaledBy fs v) (vscale v (product fs)).
Proof.
  eapply veq_trans; [| apply exactlyScaledBy_vscale].
  apply exactlyScaledBy_veq, vscale_one.
Qed.

Lemma product_nonneg fs : forall a,
  Forall (fun f => 0 <= f /\ f <= 1) fs -> 0 <= a -> 0 <= fold_left Qmult fs a.
Proof.
  induction fs as [| f fs IH]; intros a Hfs Ha; simpl; [exact Ha |].
  inversion Hfs as [| ? ? [Hf0 _] Hrest]; subst.
  apply IH; [exact Hrest | nra].
Qed.

(** Rounded scaling by factors that are not negative keeps the sign of
    every axis, or brings the axis to zero. *)
Lemma scaledBy_sign fs : forall v j,
  Forall (fun f => 0 <= f /\ f <= 1) fs ->
  (0 <= coeff v j -> 0 <= coeff (Rounded.scaledBy fs v) j) /\
  (coeff v j <= 0 -> coeff (Rounded.scaledBy fs v) j <= 0).
Proof.
  induction fs as [| f fs IH]; intros v j Hfs; simpl; [tauto |].
  inversion Hfs as [| ? ? [Hf0 _] Hrest]; subst.
  destruct (IH (Rounded.vscale v f) j Hrest) as [IHpos IHneg].
  rewrite RoundedFacts.rounded_coeff_vscale in IHpos, IHneg.
  split; intro Hv.
  - apply IHpos, RoundedFacts.toDouble_nonneg. nra.
  - apply IHneg, RoundedFacts.toDouble_nonpos. nra.
Qed.

(** A pass of the rounded loop extends the log by the factor it applies. *)
Lemma scaleStep_scaledBy m v st j :
  0 <= m ->
  fst st = Rounded.scaledBy (snd st) v ->
  Forall (fun f => 0 <= f /\ f <= 1) (snd st) ->
  fst (Rounded.scaleStep m st j)
  = Rounded.scaledBy (snd (Rounded.scaleStep m st j)) v /\
  Forall (fun f => 0 <= f /\ f <= 1) (snd (Rounded.scaleStep m st j)) /\
  (length (snd (Rounded.scaleStep m st j)) <= S (length (snd st)))%nat.
Proof.
  intros Hm Hst Hfs.
  destruct (RoundedFacts.rounded_scaleStep_cases m st j)
    as [Hsame | (f & Hf0 & Hf1 & Hscaled)].
  - rewrite Hsame. split; [exact Hst | split; [exact Hfs | lia]].
  - rewrite Hscaled. simpl fst. simpl snd. split; [| split].
    + unfold Rounded.scaledBy. rewrite fold_left_app. simpl.
      fold (Rounded.scaledBy (snd st) v). rewrite <- Hst. reflexivity.
    + apply Forall_app. split; [exact Hfs |].
      constructor; [split; [exact Hf0 | exact (Hf1 Hm)] | constructor].
    + rewrite length_app. simpl. lia.
Qed.

Lemma proportionalSpeed_scaledBy m v :
  0 <= m ->
  Rounded.proportionalSpeed m v
  = Rounded.scaledBy (Rounded.proportionalFactors m v) v /\
  Forall (fun f => 0 <= f /\ f <= 1) (Rounded.proportionalFactors m v) /\
  (length (Rounded.proportionalFactors m v) <= 3)%nat.
Proof.
  intro Hm. unfold Rounded.proportionalSpeed, Rounded.proportionalFactors.
  rewrite RoundedFacts.rounded_scaleLoop_unfold.
  assert (H0 : fst (v, @nil Q) = Rounded.scaledBy (snd (v, @nil Q)) v)
    by reflexivity.
  assert (F0 : Forall (fun f => 0 <= f /\ f <= 1) (snd (v, @nil Q)))
    by constructor.
  destruct (scaleStep_scaledBy m v _ 0 Hm H0 F0) as (H1 & F1 & L1).
  destruct (scaleStep_scaledBy m v _ 1 Hm H1 F1) as (H2 & F2 & L2).
  destruct (scaleStep_scaledBy m v _ 2 Hm H2 F2) as (H3 & F3 & L3).
  split; [exact H3 | split; [exact F3 |]]. cbn [snd length] in L1. lia.
Qed.

(** C6, counterexample.  For the input (10, -30, 5), three doubles none of
    which is zero, and a speed limit of 2, the proportional policy returns
    (6004799503160661 / 2^53, -2, 6004799503160661 / 2^54), which is no
    scalar multiple of the input: -2 is -30 / 15, and the x axis is not
    10 / 15. *)
Lemma proportional_bends_direction :
  0 < 2 /\
  Rounded.isDouble 10 /\ Rounded.isDouble (-30) /\ Rounded.isDouble 5 /\
  ~ vx (mkVector3d 10 (-30) 5) == 0 /\
  ~ vy (mkVector3d 10 (-30) 5) == 0 /\
  ~ vz (mkVector3d 10 (-30) 5) == 0 /\
  Rounded.delimitSpeed true 2 (mkVector3d 10 (-30) 5)
  = mkVector3d (6004799503160661 # 9007199254740992) (-2)
               (6004799503160661 # 18014398509481984) /\
  ~ exists k,
      0 <= k /\
      veq (Rounded.delimitSpeed true 2 (mkVector3d 10 (-30) 5))
          (vscale (mkVector3d 10 (-30) 5) k).
Proof.
  assert (Hout : Rounded.delimitSpeed true 2 (mkVector3d 10 (-30) 5)
                 = mkVector3d (6004799503160661 # 9007199254740992) (-2)
                              (6004799503160661 # 18014398509481984))
    by (vm_compute; reflexivity).
  split; [reflexivity |].
  split; [vm_compute; split; [reflexivity | discriminate] |].
  split; [vm_compute; split; [reflexivity | discriminate] |].
  split; [vm_compute; split; [reflexivity | discriminate] |].
  split; [simpl; discriminate |].
  split; [simpl; discriminate |].
  split; [simpl; discriminate |].
  split; [exact Hout |].
  rewrite Hout. intros (k & _ & Hx & Hy & _). simpl in Hx, Hy. lra.
Qed.

(** C6, as amended.  Under proportional scaling with a speed limit above
    zero and an input without a zero axis, the output is the input with its
    three axes multiplied in turn by the same factors, at most three, each
    between 0 and 1, every product rounded to [double].  Each axis keeps its
    sign or comes to zero.  When the roundings change nothing, the output is
    the input multiplied by the product of the factors, a scalar that is not
    negative, and the ratio between any two axes is that of the input. *)
Theorem proportional_keeps_direction (max_speed : Q) (speed : Vector3d) :
  0 < max_speed ->
  ~ vx speed == 0 -> ~ vy speed == 0 -> ~ vz speed == 0 ->
  let output := Rounded.delimitSpeed true max_speed speed in
  let factors := Rounded.proportionalFactors max_speed speed in
  output = Rounded.scaledBy factors speed /\
  (length factors <= 3)%nat /\
  Forall (fun f => 0 <= f /\ f <= 1) factors /\
  (forall j,
     (0 <= coeff speed j -> 0 <= coeff output j) /\
     (coeff speed j <= 0 -> coeff output j <= 0)) /\
  (veq (Rounded.scaledBy factors speed) (exactlyScaledBy factors speed) ->
   0 <= product factors /\
   veq output (vscale speed (product factors)) /\
   vx output * vy speed == vy output * vx speed /\
   vy output * vz speed == vz output * vy speed /\
   vx output * vz speed == vz output * vx speed).
Proof.
  intros Hmax _ _ _ output factors. subst output factors. simpl.
  assert (Hm : 0 <= max_speed) by lra.
  destruct (proportionalSpeed_scaledBy max_speed speed Hm) as (Hby & Hfs & Hlen).
  split; [exact Hby | split; [exact Hlen | split; [exact Hfs | split]]].
  - intro j. rewrite Hby. apply scaledBy_sign, Hfs.
  - intro Hexact.
    assert (Hveq : veq (Rounded.proportionalSpeed max_speed speed)
                       (vscale speed
                          (product (Rounded.proportionalFactors max_speed speed)))).
    { rewrite Hby. eapply veq_trans; [exact Hexact |].
      apply exactlyScaledBy_product. }
    split; [apply product_nonneg; [exact Hfs | lra] | split; [exact Hveq |]].
    destruct Hveq as (Hx & Hy & Hz). simpl in Hx, Hy, Hz.
    rewrite Hx, Hy, Hz. repeat split; ring.
Qed.

(** On (4, 8, 2) with a speed limit of 2 the roundings change nothing: the
    two factors are one half, and the output is (1, 2, 1/2). *)
Lemma scaling_4_8_2_is_exact :
  Rounded.proportionalFactors 2 (mkVector3d 4 8 2) = [1 # 2; 1 # 2] /\
  veq (Rounded.scaledBy [1 # 2; 1 # 2] (mkVector3d 4 8 2))
      (exactlyScaledBy [1 # 2; 1 # 2] (mkVector3d 4 8 2)) /\
  Rounded.delimitSpeed true 2 (mkVector3d 4 8 2) = mkVector3d 1 2 (1 # 2).
Proof.
  split; [vm_compute; reflexivity | split; [| vm_compute; reflexivity]].
  vm_compute. repeat split.
Qed.

Lemma proportional_keeps_direction_witness :
  0 < 2 /\ ~ 4 == 0 /\ ~ 8 == 0 /\ ~ 2 == 0 /\
  let output := Rounded.delimitSpeed true 2 (mkVector3d 4 8 2) in
  let factors := Rounded.proportionalFactors 2 (mkVector3d 4 8 2) in
  output = Rounded.scaledBy factors (mkVector3d 4 8 2) /\
  (length factors <= 3)%nat /\
  Forall (fun f => 0 <= f /\ f <= 1) factors /\
  (forall j,
     (0 <= coeff (mkVector3d 4 8 2) j -> 0 <= coeff output j) /\
     (coeff (mkVector3d 4 8 2) j <= 0 -> coeff output j <= 0)) /\
  (veq (Rounded.scaledBy factors (mkVector3d 4 8 2))
       (exactlyScaledBy factors (mkVector3d 4 8 2)) ->
   0 <= product factors /\
   veq output (vscale (mkVector3d 4 8 2) (product factors)) /\
   vx output * 8 == vy output * 4 /\
   vy output * 2 == vz output * 8 /\
   vx output * 2 == vz output * 4).
Proof.
  assert (H4 : ~ 4 == 0) by discriminate.
  assert (H8 : ~ 8 == 0) by discriminate.
  assert (H2 : ~ 2 == 0) by discriminate.
  split; [reflexivity |].
  split; [exact H4 | split; [exact H8 | split; [exact H2 |]]].
  apply (proportional_keeps_direction 2 (mkVector3d 4 8 2));
    [reflexivity | exact H4 | exact H8 | exact H2].
Defined.

(** ** The answers of the actuator interface *)

(** A run returns only at a pass that found the goal reached or a
    cancellation pending, all earlier passes having gone on. *)
Lemma onExecute_returns_at_exit p ticks success :
  snd (onExecute p ticks) = Some success ->
  exists more t rest,
    ticks = more ++ t :: rest /\
    Forall running more /\
    (checkGoalCondition t = true \/ is_canceling t = true).
Proof.
  induction ticks as [| t ticks IH]; simpl; [discriminate |].
  destruct (checkGoalCondition t) eqn:Hgoal; simpl.
  - intros _. exists [], t, ticks. repeat split; auto.
  - destruct (is_canceling t) eqn:Hcancel; simpl.
    + intros _. exists [], t, ticks. repeat split; auto.
    + destruct (onExecute p ticks) as [events returned]. simpl in *.
      intro H. destruct (IH H) as (more & t' & rest & -> & Hmore & Hexit).
      exists (t :: more), t', rest. repeat split; try assumption.
      constructor; [split; assumption | exact Hmore].
Qed.

(** C3, as amended.  The loop does not read the answer of the actuator
    interface to a velocity command.  Through passes whose commands are all
    rejected, none of which finds the goal reached or a cancellation
    pending, it sends the velocity command of every pass, issues no hold
    command, reports no abort and goes on with the passes that follow; the
    run is the one that the same passes give with any other answers, and
    when it returns, it does so at a later pass that found the goal reached
    or a cancellation pending. *)
Theorem actuator_answer_is_ignored (p : Plugin) (pre post : list Tick) :
  Forall running pre ->
  Forall (fun t => command_accepted t = false) pre ->
  let run := onExecute p (pre ++ post) in
  fst run = flat_map (controlTick p) pre ++ fst (onExecute p post) /\
  snd run = snd (onExecute p post) /\
  count isSpeedCommand (flat_map (controlTick p) pre) = length pre /\
  count isHover (flat_map (controlTick p) pre) = 0%nat /\
  count isAbort (fst run) = 0%nat /\
  (forall success,
     snd run = Some success ->
     exists more t rest,
       post = more ++ t :: rest /\
       Forall running more /\
       (checkGoalCondition t = true \/ is_canceling t = true)) /\
  (forall accepted,
     onExecute p (map (answering accepted) (pre ++ post)) = run).
Proof.
  intros Hpre _ run. subst run.
  rewrite (onExecute_running p pre post Hpre). simpl fst. simpl snd.
  destruct (count_controlTicks p pre) as (Hhover & Habort & Hspeed).
  split; [reflexivity | split; [reflexivity |]].
  split; [exact Hspeed | split; [exact Hhover |]].
  split; [| split].
  - rewrite count_app, Habort. apply onExecute_no_abort.
  - intros success Hret. exact (onExecute_returns_at_exit p post success Hret).
  - intro accepted. rewrite onExecute_answering.
    apply (onExecute_running p pre post Hpre).
Qed.

Lemma actuator_answer_is_ignored_witness :
  Forall running [Scenario.rejected; Scenario.rejected] /\
  Forall (fun t => command_accepted t = false)
         [Scenario.rejected; Scenario.rejected] /\
  let run :=
    onExecute Scenario.plugin
      ([Scenario.rejected; Scenario.rejected]
       ++ [Scenario.flying; Scenario.arrived]) in
  fst run
  = flat_map (controlTick Scenario.plugin)
      [Scenario.rejected; Scenario.rejected]
    ++ fst (onExecute Scenario.plugin [Scenario.flying; Scenario.arrived]) /\
  snd run = snd (onExecute Scenario.plugin [Scenario.flying; Scenario.arrived]) /\
  count isSpeedCommand
    (flat_map (controlTick Scenario.plugin)
       [Scenario.rejected; Scenario.rejected])
  = length [Scenario.rejected; Scenario.rejected] /\
  count isHover
    (flat_map (controlTick Scenario.plugin)
       [Scenario.rejected; Scenario.rejected])
  = 0%nat /\
  count isAbort (fst run) = 0%nat /\
  (forall success,
     snd run = Some success ->
     exists more t rest,
       [Scenario.flying; Scenario.arrived] = more ++ t :: rest /\
       Forall running more /\
       (checkGoalCondition t = true \/ is_canceling t = true)) /\
  (forall accepted,
     onExecute Scenario.plugin
       (map (answering accepted)
          ([Scenario.rejected; Scenario.rejected]
           ++ [Scenario.flying; Scenario.arrived]))
     = run).
Proof.
  assert (Hpre : Forall running [Scenario.rejected; Scenario.rejected])
    by (repeat constructor).
  assert (Hrej : Forall (fun t => command_accepted t = false)
                        [Scenario.rejected; Scenario.rejected])
    by (repeat constructor).
  split; [exact Hpre | split; [exact Hrej |]].
  exact (actuator_answer_is_ignored Scenario.plugin
           [Scenario.rejected; Scenario.rejected]
           [Scenario.flying; Scenario.arrived] Hpre Hrej).
Defined.

(** ** More on the limiter with its roundings *)

Lemma getValidSpeed_sign m s :
  0 <= m ->
  (0 <= s -> 0 <= getValidSpeed m s) /\ (s <= 0 -> getValidSpeed m s <= 0).
Proof.
  intro Hm. unfold getValidSpeed.
  destruct (Cmp.gtb (Qabs s) m) eqn:Hgt;
    destruct (Cmp.ltb s 0) eqn:Hneg; cmp_prop;
    abs_split s; split; intro Hs; lra.
Qed.

Lemma rounded_scaleStep_inside m st j :
  Qabs (coeff (fst st) j) <= m -> Rounded.scaleStep m st j = st.
Proof.
  destruct st as [speed factors]. simpl fst. intro Hin. unfold Rounded.scaleStep.
  destruct (Cmp.eqb m 0 || Cmp.eqb (coeff speed j) 0); [reflexivity |].
  destruct (Cmp.gtb (coeff speed j) m || Cmp.ltb (coeff speed j) (- m))
    eqn:Hover; [| reflexivity].
  exfalso. cmp_prop.
  destruct Hover as [Hover | Hover]; cmp_prop; abs_split (coeff speed j); lra.
Qed.

(** X24.  For a speed limit that is not negative, neither policy reverses
    an axis, roundings included: an input axis that is not negative gives
    an output axis that is not negative, and an input axis that is not
    positive gives an output axis that is not positive. *)
Theorem limiter_never_reverses (proportional_speed_limit_ : bool)
    (max_speed : Q) (speed : Vector3d) (j : nat) :
  0 <= max_speed ->
  (0 <= coeff speed j ->
   0 <= coeff (Rounded.delimitSpeed proportional_speed_limit_ max_speed speed) j)
  /\
  (coeff speed j <= 0 ->
   coeff (Rounded.delimitSpeed proportional_speed_limit_ max_speed speed) j <= 0).
Proof.
  intro Hm. destruct proportional_speed_limit_; simpl.
  - destruct (proportionalSpeed_scaledBy max_speed speed Hm) as (Hby & Hfs & _).
    rewrite Hby. apply scaledBy_sign, Hfs.
  - rewrite RoundedFacts.rounded_coeff_clampSpeed.
    destruct (getValidSpeed_sign max_speed
                (Rounded.toFloat (coeff speed j)) Hm) as [Hpos Hneg].
    split; intro Hs.
    + apply Hpos, round_nonneg, Hs.
    + apply Hneg, round_nonpos; [reflexivity | exact Hs].
Qed.

Lemma limiter_never_reverses_witness :
  0 <= 2 /\
  (0 <= coeff (mkVector3d 10 (-30) 5) 1 ->
   0 <= coeff (Rounded.delimitSpeed true 2 (mkVector3d 10 (-30) 5)) 1) /\
  (coeff (mkVector3d 10 (-30) 5) 1 <= 0 ->
   coeff (Rounded.delimitSpeed true 2 (mkVector3d 10 (-30) 5)) 1 <= 0).
Proof.
  split; [discriminate |].
  apply (limiter_never_reverses true 2 (mkVector3d 10 (-30) 5) 1). discriminate.
Defined.

(** X25.  While every axis of the input is within the speed limit, the
    proportional policy returns the input as it is, with no division and no
    rounding, and the per-axis clamp returns every axis narrowed to
    [float]. *)
Theorem limiter_inside_the_limit (max_speed : Q) (speed : Vector3d) :
  Rounded.isFloat max_speed ->
  Qabs (vx speed) <= max_speed ->
  Qabs (vy speed) <= max_speed ->
  Qabs (vz speed) <= max_speed ->
  Rounded.delimitSpeed true max_speed speed = speed /\
  Rounded.proportionalFactors max_speed speed = [] /\
  Rounded.delimitSpeed false max_speed speed
  = mkVector3d (Rounded.toFloat (vx speed)) (Rounded.toFloat (vy speed))
               (Rounded.toFloat (vz speed)).
Proof.
  intros [Hfloat _] Hx Hy Hz.
  assert (Hloop : Rounded.scaleLoop max_speed speed = (speed, [])).
  { rewrite RoundedFacts.rounded_scaleLoop_unfold.
    rewrite (rounded_scaleStep_inside max_speed (speed, []) 0) by exact Hx.
    rewrite (rounded_scaleStep_inside max_speed (speed, []) 1) by exact Hy.
    apply rounded_scaleStep_inside. exact Hz. }
  unfold Rounded.delimitSpeed, Rounded.proportionalSpeed,
    Rounded.proportionalFactors. rewrite Hloop.
  split; [reflexivity | split; [reflexivity |]].
  unfold Rounded.clampSpeed.
  rewrite !getValidSpeed_inside
    by (apply RoundedFacts.toFloat_within; assumption).
  reflexivity.
Qed.

Lemma limiter_inside_the_limit_witness :
  Rounded.isFloat 2 /\
  Qabs (vx (mkVector3d Rounded.tenth (-2) 0)) <= 2 /\
  Qabs (vy (mkVector3d Rounded.tenth (-2) 0)) <= 2 /\
  Qabs (vz (mkVector3d Rounded.tenth (-2) 0)) <= 2 /\
  Rounded.delimitSpeed true 2 (mkVector3d Rounded.tenth (-2) 0)
  = mkVector3d Rounded.tenth (-2) 0 /\
  Rounded.proportionalFactors 2 (mkVector3d Rounded.tenth (-2) 0) = [] /\
  Rounded.delimitSpeed false 2 (mkVector3d Rounded.tenth (-2) 0)
  = mkVector3d (Rounded.toFloat (vx (mkVector3d Rounded.tenth (-2) 0)))
               (Rounded.toFloat (vy (mkVector3d Rounded.tenth (-2) 0)))
               (Rounded.toFloat (vz (mkVector3d Rounded.tenth (-2) 0))).
Proof.
  assert (H2 : Rounded.isFloat 2)
    by (vm_compute; split; [reflexivity | discriminate]).
  assert (Hx : Qabs (vx (mkVector3d Rounded.tenth (-2) 0)) <= 2)
    by (vm_compute; discriminate).
  assert (Hy : Qabs (vy (mkVector3d Rounded.tenth (-2) 0)) <= 2)
    by (vm_compute; discriminate).
  assert (Hz : Qabs (vz (mkVector3d Rounded.tenth (-2) 0)) <= 2)
    by (vm_compute; discriminate).
  split; [exact H2 | split; [exact Hx | split; [exact Hy | split; [exact Hz |]]]].
  exact (limiter_inside_the_limit 2 (mkVector3d Rounded.tenth (-2) 0)
           H2 Hx Hy Hz).
Defined.
